(** * The manifest materializer of [lib/k8s.ts]

    A shallow embedding of [specResourceName], [createSpecResource] and
    [resourcesFromSpecs], followed by the properties of the materializer.

    - Specs are [any] in the source, so they are modelled as JavaScript
      values ([JS.value]), with the truthiness tests, optional chaining and
      string conversions the source relies on.
    - [String.prototype.toLowerCase] on a value that is no string is a
      [TypeError], and so is the conversion to a string of an object whose
      own [toString] is no function; fallible code returns a [result].
    - The constructors of [@pulumi/kubernetes] are not part of the
      repository and may throw; what they do is a parameter ([Sdk]) of the
      embedding, and every property holds for all constructors.
    - The options object of a call is a mutable JavaScript object, so
      [resourcesFromSpecs] runs in a state monad over a store of such
      objects: the spread [{ ...args.options }] allocates a new object and
      the assignment to [dependsOn] updates that object in place. *)

From Stdlib Require Import Ascii.
From stdpp Require Import gmap strings list fin_maps pretty.

#[local] Set Warnings "-register-all".
#[local] Open Scope string_scope.
#[local] Open Scope list_scope.

(** ** Results of fallible code *)

(** The exceptions: the [TypeError] of the language, and the [Error] of
    a library. *)
Inductive exn : Type := TypeError | Error.

Inductive result (A : Type) : Type :=
  | Ok (a : A)
  | Throw (e : exn).
Arguments Ok {A} a.
Arguments Throw {A} e.

#[global] Instance result_ret : MRet result := λ A, Ok.
#[global] Instance result_bind : MBind result := λ A B f m,
  match m with
  | Ok a => f a
  | Throw e => Throw e
  end.
#[global] Instance result_fmap : FMap result := λ A B f m,
  match m with
  | Ok a => Ok (f a)
  | Throw e => Throw e
  end.

(** ** JavaScript values *)

Module JS.

(** The values of a decoded manifest: what JSON or plain YAML denotes.
    A number is an integer, [VNum z] being the double nearest to [z];
    strings are byte strings.  An object is the finite map of its own
    properties, its prototype being [Object.prototype]; functions are not
    among these values. *)
Inductive value : Type :=
  | VUndefined
  | VNull
  | VBool (b : bool)
  | VNum (z : Z)
  | VStr (s : string)
  | VArr (elems : list value)
  | VObj (fields : gmap string value).

(** ToBoolean. *)
Definition truthy (v : value) : bool :=
  match v with
  | VUndefined | VNull => false
  | VBool b => b
  | VNum z => negb (z =? 0)%Z
  | VStr s => negb (s =? "")
  | VArr _ | VObj _ => true
  end.

(** [v.k].  None of the property names read by the source ([kind],
    [apiVersion], [metadata], [name], [namespace]) lives on the prototype
    of a primitive, an array or a plain object, so reading one of them
    from anything but an object holding it gives [undefined]; reading
    from [undefined] or [null] throws. *)
Definition getProp (v : value) (k : string) : result value :=
  match v with
  | VUndefined | VNull => Throw TypeError
  | VObj fields => Ok (default VUndefined (fields !! k))
  | _ => Ok VUndefined
  end.

(** [v?.k]: as [v.k], but [undefined] when [v] is [undefined] or [null]. *)
Definition optChain (v : value) (k : string) : value :=
  match v with
  | VObj fields => default VUndefined (fields !! k)
  | _ => VUndefined
  end.

(** [v === "lit"] for a string literal. *)
Definition strictEqStr (v : value) (lit : string) : bool :=
  match v with
  | VStr s => s =? lit
  | _ => false
  end.

Definition lowerAscii (c : ascii) : ascii :=
  let n := nat_of_ascii c in
  if (65 <=? n)%nat && (n <=? 90)%nat then ascii_of_nat (n + 32) else c.

(** [toLowerCase] as it is on a string of ASCII characters, the
    alphabet of Kubernetes kinds and of IAM roles: the letters [A] to [Z]
    are lowered, every other character is kept.  The case mapping of
    Unicode beyond ASCII is not modelled; what is proved of the lowering of
    a string that [isAscii] does not hold of is proved of this function
    only. *)
Fixpoint lowerString (s : string) : string :=
  match s with
  | EmptyString => EmptyString
  | String c s' => String (lowerAscii c) (lowerString s')
  end.

(** All characters of [s] are ASCII. *)
Fixpoint isAscii (s : string) : bool :=
  match s with
  | EmptyString => true
  | String c s' => (nat_of_ascii c <? 128)%nat && isAscii s'
  end.

(** The method call [v.toLowerCase()]: only strings have the method. *)
Definition toLowerCase (v : value) : result string :=
  match v with
  | VStr s => Ok (lowerString s)
  | _ => Throw TypeError
  end.

Definition joinStrs (sep : string) : list string → string :=
  fix go l :=
    match l with
    | [] => ""
    | [x] => x
    | x :: xs => x +:+ sep +:+ go xs
    end.

(** The Number value of a positive integer [z]: the nearest double, ties
    to the even significand, as [m * 2 ^ e] with [2^52 <= m < 2^53] when
    [z] needs more than 53 bits; [None] when it is out of range
    (Infinity). *)
Definition roundToDouble (z : Z) : option (Z * Z) :=
  let bits := (Z.log2 z + 1)%Z in
  if (bits <=? 53)%Z then Some (z, 0%Z)
  else
    let e := (bits - 53)%Z in
    let q := Z.shiftr z e in
    let r := (z - Z.shiftl q e)%Z in
    let half := Z.shiftl 1 (e - 1) in
    let up := (half <? r)%Z || ((r =? half)%Z && Z.odd q) in
    let m := if up then (q + 1)%Z else q in
    let '(m, e) := if (m =? 2 ^ 53)%Z then (2 ^ 52, e + 1)%Z else (m, e) in
    if (971 <? e)%Z then None else Some (m, e).

(** [v] is read back as the double [m * 2 ^ e] (with [e >= 1]). *)
Definition readsAs (m e v : Z) : bool :=
  let d4 := (4 * m * 2 ^ e)%Z in
  let below := if (m =? 2 ^ 52)%Z then (2 ^ e)%Z else (2 ^ (e + 1))%Z in
  let lo4 := (d4 - below)%Z in
  let hi4 := (d4 + 2 ^ (e + 1))%Z in
  let v4 := (4 * v)%Z in
  ((lo4 <? v4)%Z && (v4 <? hi4)%Z)
  || (Z.even m && ((v4 =? lo4)%Z || (v4 =? hi4)%Z)).

(** The shortest decimal [v = s * 10 ^ p] read back as [d = m * 2 ^ e],
    the closest to [d] among the shortest; searched from the largest
    power of ten [pw = 10 ^ p] down. *)
Fixpoint shortest (p : nat) (pw m e d : Z) : Z * Z :=
  let v1 := (d / pw * pw)%Z in
  let v2 := (v1 + pw)%Z in
  let ok1 := (0 <? v1)%Z && readsAs m e v1 in
  let ok2 := readsAs m e v2 in
  if ok1 && ok2 then
    if (d - v1 <? v2 - d)%Z then (v1, pw)
    else if (v2 - d <? d - v1)%Z then (v2, pw)
    else if Z.even (v1 / pw) then (v1, pw) else (v2, pw)
  else if ok1 then (v1, pw)
  else if ok2 then (v2, pw)
  else match p with
       | S p' => shortest p' (pw / 10) m e d
       | O => (d, 1%Z)
       end.

(** The decimal digits of an integer. *)
Definition digitsOf (z : Z) : string := pretty z.

(** Number::toString for a positive integer. *)
Definition positiveToString (z : Z) : string :=
  match roundToDouble z with
  | None => "Infinity"
  | Some (m, e) =>
    if (e =? 0)%Z then digitsOf z
    else
      let d := (m * 2 ^ e)%Z in
      let p := String.length (digitsOf d) in
      let '(v, pw) := shortest p (10 ^ Z.of_nat p) m e d in
      let n := String.length (digitsOf v) in
      if (n <=? 21)%nat then digitsOf v
      else
        let s := digitsOf (v / pw) in
        match s with
        | String c "" => String c "" +:+ "e+" +:+ pretty (n - 1)%nat
        | String c rest =>
            String c ("." +:+ rest) +:+ "e+" +:+ pretty (n - 1)%nat
        | "" => ""
        end
  end.

(** Number::toString on the number an integer denotes. *)
Definition numberToString (z : Z) : string :=
  match z with
  | Z0 => "0"
  | Zpos _ => positiveToString z
  | Zneg _ => "-" +:+ positiveToString (- z)
  end.

(** ToString.  An array prints as its elements joined by a comma.  An
    object goes through [toString] and [valueOf]: an own [toString]
    property of a decoded manifest is no function, [valueOf] then gives no
    primitive, and the conversion throws; without one,
    [Object.prototype.toString] is called. *)
Fixpoint toString (v : value) : result string :=
  match v with
  | VUndefined => Ok "undefined"
  | VNull => Ok "null"
  | VBool b => Ok (if b then "true" else "false")
  | VNum z => Ok (numberToString z)
  | VStr s => Ok s
  | VArr elems =>
      strs ← mapM (λ e, match e with
                        | VUndefined | VNull => Ok ""
                        | _ => toString e
                        end) elems;
      Ok (joinStrs "," strs)
  | VObj fields =>
      match fields !! "toString" with
      | Some _ => Throw TypeError
      | None => Ok "[object Object]"
      end
  end.

(** One element of [Array.prototype.join]. *)
Definition joinElem (v : value) : result string :=
  match v with
  | VUndefined | VNull => Ok ""
  | _ => toString v
  end.

(** [parts.join(sep)]: the elements are converted in order. *)
Definition join (parts : list value) (sep : string) : result string :=
  strs ← mapM joinElem parts; Ok (joinStrs sep strs).

End JS.
Import JS.

Notation "v === s" := (strictEqStr v s) (at level 70, no associativity).
Notation "v !== s" := (negb (strictEqStr v s)) (at level 70, no associativity).

(** ** Resource names *)

(** [specResourceName]: the name under which the resource of a spec is
    registered, [undefined] ([None]) when the spec cannot be named. *)
Definition specResourceName (spec : value) : result (option string) :=
  if negb (truthy (optChain spec "kind"))
     || negb (truthy (optChain (optChain spec "metadata") "name"))
  then Ok None
  else
    specKind ← getProp spec "kind";
    kind ← toLowerCase specKind;
    let parts := [VStr "k8s"; VStr kind] in
    metadata ← getProp spec "metadata";
    parts ←
      (if (VStr kind !== "namespace") && truthy (optChain metadata "namespace")
       then ns ← getProp metadata "namespace"; Ok (parts ++ [ns])
       else Ok parts);
    name ← getProp metadata "name";
    let parts := parts ++ [name] in
    Some <$> join parts "/".

(** ** The Pulumi side: resources and option objects *)

Module Pulumi.

(** The resource classes of [@pulumi/kubernetes] that the source
    instantiates, named by their path under [k8s]. *)
Inductive Family : Type :=
  | core_v1_ConfigMap
  | core_v1_Namespace
  | core_v1_Secret
  | core_v1_Service
  | core_v1_ServiceAccount
  | apps_v1_DaemonSet
  | apps_v1_Deployment
  | apps_v1_StatefulSet
  | batch_v1_Job
  | batch_v1beta1_CronJob
  | policy_v1beta1_PodDisruptionBudget
  | policy_v1beta1_PodSecurityPolicy
  | networking_v1_NetworkPolicy
  | networking_v1beta1_Ingress
  | rbac_v1_ClusterRole
  | rbac_v1_ClusterRoleBinding
  | rbac_v1_Role
  | rbac_v1_RoleBinding
  | admissionregistration_v1beta1_MutatingWebhookConfiguration
  | admissionregistration_v1_MutatingWebhookConfiguration
  | admissionregistration_v1beta1_ValidatingWebhookConfiguration
  | admissionregistration_v1_ValidatingWebhookConfiguration
  | apiextensions_v1beta1_CustomResourceDefinition
  | apiextensions_v1_CustomResourceDefinition
  | apiextensions_CustomResource.

(** Option objects live in a store and are passed by reference. *)
Abbreviation loc := positive.

(** A resource handle: what [new k8s.F(name, props, opts)] was given
    when it returned.  The handle records the arguments, [opts] being the
    reference the constructor received. *)
Record Resource : Type := new {
  family : Family;
  name : string;
  props : value;
  opts : loc;
}.

(** The constructors belong to the SDK, which is no part of the
    repository, and a constructor may throw instead of returning (the
    generated classes do on a missing required property, for one).  What
    the constructors do under the options of the call at hand is a
    parameter: [constructorThrows F name props] is the exception that
    [new k8s.F(name, props, opts)] throws, if it throws.  The options are
    the caller's own, with or without the [dependsOn] that the
    materializer sets; the constructors hand them to the engine. *)
Class Sdk : Type := constructorThrows : Family → string → value → option exn.

(** [new k8s.F(name, props, opts)]. *)
Definition construct {sdk : Sdk}
    (F : Family) (name : string) (props : value) (opts : loc)
  : result Resource :=
  match constructorThrows F name props with
  | Some e => Throw e
  | None => Ok (new F name props opts)
  end.

(** The value of one setting of an option object: the resources of a
    [dependsOn] set by the materializer, or a value it never looks into
    (the provider, a caller's [dependsOn], [parent], ...). *)
Inductive optVal : Type :=
  | OOpaque (tag : string)
  | OResources (rs : list Resource).

Abbreviation optionsObj := (gmap string optVal).
Abbreviation store := (gmap loc (gmap string optVal)).

(** Computations that read and write the store and may throw; the
    store survives a throw, as objects do in JavaScript. *)
Definition M (A : Type) : Type := store → result A * store.

#[global] Instance M_ret : MRet M := λ A a σ, (Ok a, σ).
#[global] Instance M_bind : MBind M := λ A B f m σ,
  match m σ with
  | (Ok a, σ') => f a σ'
  | (Throw e, σ') => (Throw e, σ')
  end.

Definition lift {A} (r : result A) : M A := λ σ, (r, σ).

(** [{ ...src }]: a new object with the settings of [src]. *)
Definition spread (src : loc) : M loc := λ σ,
  let l := fresh (dom σ) in
  (Ok l, <[l := default ∅ (σ !! src)]> σ).

(** [o.k = v]. *)
Definition setProp (o : loc) (k : string) (v : optVal) : M unit := λ σ,
  (Ok (), alter (insert k v) o σ).

End Pulumi.
Import Pulumi.

(** ** Dispatch *)

(** [createSpecResource].  [spec.kind] is a pure read, done once here;
    [return new k8s.F(resource, spec, opts)] returns the resource that
    the constructor gives, when it gives one. *)
Definition createSpecResource {sdk : Sdk} (spec : value) (opts : loc)
  : result (option Resource) :=
  resource ← specResourceName spec;
  match resource with
  | None => Ok None
  | Some resource =>
    if resource =? "" then Ok None else
    kind ← getProp spec "kind";
    if kind === "ConfigMap" then
      Some <$> construct core_v1_ConfigMap resource spec opts
    else if kind === "Namespace" then
      Some <$> construct core_v1_Namespace resource spec opts
    else if kind === "Secret" then
      Some <$> construct core_v1_Secret resource spec opts
    else if kind === "Service" then
      Some <$> construct core_v1_Service resource spec opts
    else if kind === "ServiceAccount" then
      Some <$> construct core_v1_ServiceAccount resource spec opts
    else if kind === "DaemonSet" then
      Some <$> construct apps_v1_DaemonSet resource spec opts
    else if kind === "Deployment" then
      Some <$> construct apps_v1_Deployment resource spec opts
    else if kind === "StatefulSet" then
      Some <$> construct apps_v1_StatefulSet resource spec opts
    else if kind === "Job" then
      Some <$> construct batch_v1_Job resource spec opts
    else if kind === "CronJob" then
      Some <$> construct batch_v1beta1_CronJob resource spec opts
    else if kind === "PodDisruptionBudget" then
      Some <$> construct policy_v1beta1_PodDisruptionBudget resource spec opts
    else if kind === "PodSecurityPolicy" then
      Some <$> construct policy_v1beta1_PodSecurityPolicy resource spec opts
    else if kind === "NetworkPolicy" then
      Some <$> construct networking_v1_NetworkPolicy resource spec opts
    else if kind === "Ingress" then
      Some <$> construct networking_v1beta1_Ingress resource spec opts
    else if kind === "ClusterRole" then
      Some <$> construct rbac_v1_ClusterRole resource spec opts
    else if kind === "ClusterRoleBinding" then
      Some <$> construct rbac_v1_ClusterRoleBinding resource spec opts
    else if kind === "Role" then
      Some <$> construct rbac_v1_Role resource spec opts
    else if kind === "RoleBinding" then
      Some <$> construct rbac_v1_RoleBinding resource spec opts
    else if kind === "MutatingWebhookConfiguration" then
      apiVersion ← getProp spec "apiVersion";
      if apiVersion === "admissionregistration.k8s.io/v1beta1" then
        Some <$> construct admissionregistration_v1beta1_MutatingWebhookConfiguration
                   resource spec opts
      else
        Some <$> construct admissionregistration_v1_MutatingWebhookConfiguration
                   resource spec opts
    else if kind === "ValidatingWebhookConfiguration" then
      apiVersion ← getProp spec "apiVersion";
      if apiVersion === "admissionregistration.k8s.io/v1beta1" then
        Some <$> construct admissionregistration_v1beta1_ValidatingWebhookConfiguration
                   resource spec opts
      else
        Some <$> construct admissionregistration_v1_ValidatingWebhookConfiguration
                   resource spec opts
    else if kind === "CustomResourceDefinition" then
      apiVersion ← getProp spec "apiVersion";
      if apiVersion === "apiextensions.k8s.io/v1beta1" then
        Some <$> construct apiextensions_v1beta1_CustomResourceDefinition
                   resource spec opts
      else
        Some <$> construct apiextensions_v1_CustomResourceDefinition
                   resource spec opts
    else
      Some <$> construct apiextensions_CustomResource resource spec opts
  end.

(** ** The materializer *)

(** [ResourcesFromSpecsArgs].  [options] is a reference to the caller's
    object.  [transform] has the type [(i: any) => any]: a function of the
    spec alone, so the index and array that [Array.prototype.map] also
    passes are not seen by it. *)
Record ResourcesFromSpecsArgs : Type := {
  options : loc;
  specs : list value;
  transform : option (value → value);
}.

(** The two predicates given to [Array.prototype.filter]. *)
Definition firstKind (s : value) : bool :=
  (optChain s "kind" === "CustomResourceDefinition")
  || (optChain s "kind" === "Namespace").

Definition restKind (s : value) : bool :=
  (optChain s "kind" !== "CustomResourceDefinition")
  && (optChain s "kind" !== "Namespace").

(** [.filter(r => !!r)]: a resource is an object, hence truthy. *)
Definition definedResources (rs : list (option Resource)) : list Resource :=
  omap id rs.

(** [resourcesFromSpecs]. *)
Definition resourcesFromSpecs {sdk : Sdk} (args : ResourcesFromSpecsArgs)
  : M (list Resource) :=
  let transform := default (λ i, i) args.(transform) in
  created ← lift (mapM (λ s, createSpecResource s args.(options))
                    (map transform (List.filter firstKind args.(specs))));
  let first := definedResources created in
  opts ← spread args.(options);
  (if (0 <? length first)%nat
   then setProp opts "dependsOn" (OResources first)
   else mret ());;
  created ← lift (mapM (λ s, createSpecResource s opts)
                    (map transform (List.filter restKind args.(specs))));
  let rest := definedResources created in
  mret (first ++ rest).

(** * Vocabulary of the specification *)

(** The fields of a spec that the materializer looks at. *)
Definition kindOf (spec : value) : value := optChain spec "kind".
Definition apiVersionOf (spec : value) : value := optChain spec "apiVersion".
Definition nameOf (spec : value) : value :=
  optChain (optChain spec "metadata") "name".
Definition namespaceOf (spec : value) : value :=
  optChain (optChain spec "metadata") "namespace".

(** A field is present when reading it gives anything but [undefined]. *)
Definition present (v : value) : Prop := v ≠ VUndefined.

(** The foundational kinds, exactly two string tags. *)
Definition foundational (spec : value) : Prop :=
  kindOf spec = VStr "CustomResourceDefinition" ∨ kindOf spec = VStr "Namespace".

(** The identifier format
    ["<fixed-prefix>/<lowercased-kind>[/<namespace>]/<name>"], the segment
    in brackets being there when [withNamespace] says so. *)
Definition identifierWith (withNamespace : bool) (k ns name : string)
  : string :=
  "k8s/" +:+ lowerString k
  +:+ (if withNamespace then "/" +:+ ns else "")
  +:+ "/" +:+ name.

(** What the code tests before it adds the namespace segment. *)
Definition namespaceSegment (k : string) (ns : value) : bool :=
  negb (lowerString k =? "namespace") && truthy ns.

(** The identifier of a spec of kind [k], from the values of its
    namespace and name: the segments are the values converted to strings,
    and there is no identifier when a conversion throws. *)
Definition identifier (k : string) (ns name : value) : result string :=
  if namespaceSegment k ns
  then s ← toString ns; n ← toString name; Ok (identifierWith true k s n)
  else n ← toString name; Ok (identifierWith false k "" n).

(** The fixed kind→target mapping as a table; the three kinds with two
    schema revisions are told apart by [apiVersion]. *)
Definition kindTable : list (string * Family) :=
  [ ("ConfigMap", core_v1_ConfigMap);
    ("Namespace", core_v1_Namespace);
    ("Secret", core_v1_Secret);
    ("Service", core_v1_Service);
    ("ServiceAccount", core_v1_ServiceAccount);
    ("DaemonSet", apps_v1_DaemonSet);
    ("Deployment", apps_v1_Deployment);
    ("StatefulSet", apps_v1_StatefulSet);
    ("Job", batch_v1_Job);
    ("CronJob", batch_v1beta1_CronJob);
    ("PodDisruptionBudget", policy_v1beta1_PodDisruptionBudget);
    ("PodSecurityPolicy", policy_v1beta1_PodSecurityPolicy);
    ("NetworkPolicy", networking_v1_NetworkPolicy);
    ("Ingress", networking_v1beta1_Ingress);
    ("ClusterRole", rbac_v1_ClusterRole);
    ("ClusterRoleBinding", rbac_v1_ClusterRoleBinding);
    ("Role", rbac_v1_Role);
    ("RoleBinding", rbac_v1_RoleBinding) ].

Definition revisionTable : list (string * (string * Family * Family)) :=
  [ ("MutatingWebhookConfiguration",
      ("admissionregistration.k8s.io/v1beta1",
       admissionregistration_v1beta1_MutatingWebhookConfiguration,
       admissionregistration_v1_MutatingWebhookConfiguration));
    ("ValidatingWebhookConfiguration",
      ("admissionregistration.k8s.io/v1beta1",
       admissionregistration_v1beta1_ValidatingWebhookConfiguration,
       admissionregistration_v1_ValidatingWebhookConfiguration));
    ("CustomResourceDefinition",
      ("apiextensions.k8s.io/v1beta1",
       apiextensions_v1beta1_CustomResourceDefinition,
       apiextensions_v1_CustomResourceDefinition)) ].

Fixpoint assoc {A} (k : string) (tbl : list (string * A)) : option A :=
  match tbl with
  | [] => None
  | (k', a) :: tbl => if k =? k' then Some a else assoc k tbl
  end.

Definition familyOf (k : string) (apiVersion : value) : Family :=
  match assoc k kindTable with
  | Some f => f
  | None =>
    match assoc k revisionTable with
    | Some (beta, fbeta, fv1) => if apiVersion === beta then fbeta else fv1
    | None => apiextensions_CustomResource
    end
  end.

(** The spec is one the code builds a resource for. *)
Definition materializable (spec : value) : bool :=
  match kindOf spec with
  | VStr k => negb (k =? "") && truthy (nameOf spec)
  | _ => false
  end.

(** The spec is one on which [toLowerCase] is called on a kind that is
    no string. *)
Definition illTyped (spec : value) : bool :=
  match kindOf spec with
  | VStr _ => false
  | k => truthy k && truthy (nameOf spec)
  end.

(** The handle of a spec under the options object [o]: the one that
    the constructor of its class returns when it is given the identifier
    of the spec. *)
Definition handleOf (o : loc) (spec : value) : option Resource :=
  match kindOf spec with
  | VStr k =>
    if materializable spec
    then match identifier k (namespaceOf spec) (nameOf spec) with
         | Ok id => Some (new (familyOf k (apiVersionOf spec)) id spec o)
         | Throw _ => None
         end
    else None
  | _ => None
  end.

(** What dispatch throws on a spec, if it throws: the [TypeError] of an
    ill-typed kind or of a name or namespace that cannot be converted to
    a string, or what the constructor of the class throws. *)
Definition raises {sdk : Sdk} (spec : value) : option exn :=
  match kindOf spec with
  | VStr k =>
    if materializable spec
    then match identifier k (namespaceOf spec) (nameOf spec) with
         | Ok id => constructorThrows (familyOf k (apiVersionOf spec)) id spec
         | Throw e => Some e
         end
    else None
  | _ => if illTyped spec then Some TypeError else None
  end.

(** What the first spec of a list on which dispatch throws makes it
    throw. *)
Fixpoint firstRaise {sdk : Sdk} (l : list value) : option exn :=
  match l with
  | [] => None
  | spec :: l =>
    match raises spec with
    | Some e => Some e
    | None => firstRaise l
    end
  end.

(** The kinds of the fixed mapping. *)
Definition mappedKinds : list string :=
  map fst kindTable ++ map fst revisionTable.

(** A value of [metadata.namespace] that is absent or a non-empty string. *)
Definition namespaceValue (ns : value) : Prop :=
  ns = VUndefined ∨ ∃ s, ns = VStr s ∧ s ≠ "".

(** A value that can be converted to a string, and the string it is
    converted to.  Among the values of a manifest only an object with an
    own [toString] property, and an array that holds one, cannot. *)
Definition printable (v : value) : bool :=
  match toString v with
  | Ok _ => true
  | Throw _ => false
  end.

Definition textOf (v : value) : string :=
  match toString v with
  | Ok s => s
  | Throw _ => ""
  end.

(** A value that is falsy ([undefined], [null], an empty string, ...) or
    can be converted to a string. *)
Definition falsyOrPrintable (v : value) : Prop :=
  truthy v = true → printable v = true.

(** The option object [o] lists [r] among the resources of its
    [dependsOn]. *)
Definition carriesDependency (o : optionsObj) (r : Resource) : Prop :=
  ∃ rs, o !! "dependsOn" = Some (OResources rs) ∧ r ∈ rs.

(** * The tiers of a run *)

(** The transform in effect: [args.transform || (i => i)]. *)
Definition effective (args : ResourcesFromSpecsArgs) : value → value :=
  default (λ i, i) args.(transform).

Definition foundationalKinds : list string :=
  ["CustomResourceDefinition"; "Namespace"].

(** Tier classification of an input spec, decided on its kind tag. *)
Definition isFoundational (spec : value) : bool :=
  match kindOf spec with
  | VStr k => bool_decide (k ∈ foundationalKinds)
  | _ => false
  end.

Definition isDependent (spec : value) : bool := negb (isFoundational spec).

(** The transformed specs of the two tiers, in input order. *)
Definition tier1 (args : ResourcesFromSpecsArgs) : list value :=
  map (effective args) (List.filter isFoundational args.(specs)).

Definition tier2 (args : ResourcesFromSpecsArgs) : list value :=
  map (effective args) (List.filter isDependent args.(specs)).

(** The tier-1 handles actually produced. *)
Definition firstHandles (args : ResourcesFromSpecsArgs) : list Resource :=
  omap (handleOf args.(options)) (tier1 args).

(** The object the dependent tier is created under, given the caller's. *)
Definition dependentOptions (o : optionsObj) (first : list Resource)
  : optionsObj :=
  match first with
  | [] => o
  | _ :: _ => <["dependsOn" := OResources first]> o
  end.

(** The positions, counted from [n], of the elements of [l] that
    satisfy [q]. *)
Fixpoint positionsFrom (n : nat) (q : value → bool) (l : list value)
  : list nat :=
  match l with
  | [] => []
  | s :: l =>
    if q s then n :: positionsFrom (S n) q l else positionsFrom (S n) q l
  end.

(** * Sample manifests *)

(** An object literal. *)
Definition obj (fields : list (string * value)) : value :=
  VObj (list_to_map fields).

(** [{ kind, metadata: { ... } }]. *)
Definition manifest (kind : value) (metadata : list (string * value)) : value :=
  obj [("kind", kind); ("metadata", obj metadata)].

Definition ns1 : value := manifest (VStr "Namespace") [("name", VStr "ns1")].

Definition web : value :=
  manifest (VStr "Deployment") [("name", VStr "web"); ("namespace", VStr "ns1")].

Definition widget : value :=
  obj [("apiVersion", VStr "example.com/v1"); ("kind", VStr "Widget");
       ("metadata", obj [("name", VStr "w")])].

Definition noName : value := manifest (VStr "ConfigMap") [].

Definition emptyKind : value := manifest (VStr "") [("name", VStr "x")].

Definition emptyNamespace : value :=
  manifest (VStr "Deployment") [("name", VStr "web"); ("namespace", VStr "")].

Definition noNamespace : value :=
  manifest (VStr "Deployment") [("name", VStr "web")].

Definition upperNamespace : value :=
  manifest (VStr "NAMESPACE") [("name", VStr "n"); ("namespace", VStr "ns1")].

Definition lowerNamespace : value :=
  manifest (VStr "namespace") [("name", VStr "n"); ("namespace", VStr "ns1")].

(** [apiextensions.k8s.io/<version>] manifests of one definition. *)
Definition crd (apiVersion : value) : value :=
  obj [("kind", VStr "CustomResourceDefinition");
       ("apiVersion", apiVersion);
       ("metadata", obj [("name", VStr "certs.example.com")]);
       ("spec", obj [("group", VStr "example.com")])].

Definition crdBeta : value := crd (VStr "apiextensions.k8s.io/v1beta1").
Definition crdV1 : value := crd (VStr "apiextensions.k8s.io/v1").

Definition webhook (kind : string) (apiVersion : value) : value :=
  obj [("kind", VStr kind); ("apiVersion", apiVersion);
       ("metadata", obj [("name", VStr "hook")])].

(** A name that cannot be converted to a string. *)
Definition unprintable : value := obj [("toString", VNum 1)].

Definition unprintableName : value :=
  manifest (VStr "ConfigMap") [("name", unprintable)].

Definition service : value :=
  manifest (VStr "Service") [("name", VStr "svc"); ("namespace", VStr "ns1")].

Definition dropServices (s : value) : value :=
  if kindOf s === "Service" then VUndefined else s.

(** A transform that makes a manifest out of anything. *)
Definition generate (s : value) : value :=
  manifest (VStr "ConfigMap") [("name", VStr "generated")].

(** A sample SDK: a constructor throws on a missing required property,
    [spec] for the classes of a custom resource definition and [roleRef]
    for the classes of a binding, and returns otherwise. *)
Definition requiredProperty (F : Family) : option string :=
  match F with
  | apiextensions_v1beta1_CustomResourceDefinition
  | apiextensions_v1_CustomResourceDefinition => Some "spec"
  | rbac_v1_ClusterRoleBinding | rbac_v1_RoleBinding => Some "roleRef"
  | _ => None
  end.

Definition sampleSdk : Sdk := λ F _ props,
  match requiredProperty F with
  | Some p =>
    match optChain props p with
    | VUndefined => Some Error
    | _ => None
    end
  | None => None
  end.

(** A definition whose [spec] is missing, which the sample SDK rejects. *)
Definition crdWithoutSpec : value :=
  obj [("kind", VStr "CustomResourceDefinition");
       ("apiVersion", VStr "apiextensions.k8s.io/v1");
       ("metadata", obj [("name", VStr "certs.example.com")])].

Definition sampleStore : store :=
  {[ 1%positive := {[ "provider" := OOpaque "k8sProvider" ]} ]}.

Definition sampleArgs : ResourcesFromSpecsArgs :=
  {| options := 1%positive; specs := [web; ns1; noName]; transform := None |}.

(** A resource of the caller, created before the call. *)
Definition callerDependency : Resource :=
  new rbac_v1_ClusterRoleBinding "cluster-admin" VUndefined 7%positive.

Definition callerOptions : optionsObj :=
  {[ "provider" := OOpaque "k8sProvider";
     "dependsOn" := OResources [callerDependency] ]}.

Definition callerStore : store := {[ 1%positive := callerOptions ]}.

Definition twoTierArgs : ResourcesFromSpecsArgs :=
  {| options := 1%positive; specs := [ns1; web]; transform := None |}.

Definition generateArgs : ResourcesFromSpecsArgs :=
  {| options := 1%positive; specs := [obj []]; transform := Some generate |}.

(** * The rest of the repository's helper code *)

(** ** Characters of a string *)

(** [c] occurs in [s]. *)
Fixpoint occurs (c : ascii) (s : string) : bool :=
  match s with
  | EmptyString => false
  | String d s' => Ascii.eqb c d || occurs c s'
  end.

(** An upper-case ASCII letter, what [lowerAscii] changes. *)
Definition isUpper (c : ascii) : bool :=
  let n := nat_of_ascii c in (65 <=? n)%nat && (n <=? 90)%nat.

Fixpoint anyUpper (s : string) : bool :=
  match s with
  | EmptyString => false
  | String c s' => isUpper c || anyUpper s'
  end.

(** ** [lib/iam.ts]

    Strings are byte strings, as before: [substring] counts characters
    as JavaScript does on ASCII names, and a byte above 127 is printed by
    [JSON.stringify] as it is. *)

Module Iam.

(** [s] without the leading [p], when it starts with [p]. *)
Fixpoint dropPrefix (p s : string) : option string :=
  match p, s with
  | EmptyString, _ => Some s
  | String a p', String b s' => if Ascii.eqb a b then dropPrefix p' s' else None
  | String _ _, EmptyString => None
  end.

(** [s.replace(/^p/, "")] for a literal [p]: the anchored pattern matches
    at the start of the string or nowhere. *)
Definition replaceLeading (p s : string) : string :=
  default s (dropPrefix p s).

(** [s.replace(/c/g, "d")] for single characters [c] and [d]. *)
Fixpoint replaceAllChar (c d : ascii) (s : string) : string :=
  match s with
  | EmptyString => EmptyString
  | String e s' => String (if Ascii.eqb e c then d else e) (replaceAllChar c d s')
  end.

(** [simpleRoleName]. *)
Definition simpleRoleName (role : string) : string :=
  lowerString (replaceAllChar "." "-" (replaceLeading "roles/" role)).

(** A [pulumi.Output<string>]: a value known only to the engine.  It is
    given by the caller, read off a resource created here (by the name of
    the resource), or built by [pulumi.concat] or [apply]. *)
Inductive output : Type :=
  | OutGiven (id : string)
  | OutProperty (resource property : string)
  | OutConcat (prefix : string) (o : output)
  | OutApply (o : output) (f : string → string).

(** The resources of [@pulumi/gcp] that [workloadIdentity] declares, with
    the arguments it passes.  The options are the caller's object, when
    there is one. *)
Inductive gcpResource : Type :=
  | serviceAccount_Account
      (name accountId description displayName : string) (project : output)
      (opts : option loc)
  | projects_IAMMember
      (name : string) (member project : output) (role : string)
      (opts : option loc)
  | serviceAccount_IAMPolicy
      (name : string) (policyData serviceAccountId : output)
      (opts : option loc).

Definition resourceName (r : gcpResource) : string :=
  match r with
  | serviceAccount_Account name _ _ _ _ _ => name
  | projects_IAMMember name _ _ _ _ => name
  | serviceAccount_IAMPolicy name _ _ _ => name
  end.

(** [r.email] and [r.id]. *)
Definition email (r : gcpResource) : output := OutProperty (resourceName r) "email".
Definition id (r : gcpResource) : output := OutProperty (resourceName r) "id".

(** Computations thread the list of the resources declared so far, in
    the order of the [new] expressions of the program.  The engine is told
    of a resource once the outputs among its arguments are known, which
    need not be in this order. *)
Definition Engine (A : Type) : Type := list gcpResource → A * list gcpResource.

#[global] Instance Engine_ret : MRet Engine := λ A a reg, (a, reg).
#[global] Instance Engine_bind : MBind Engine := λ A B f m reg,
  let '(a, reg') := m reg in f a reg'.

(** [new gcp.T(...)]. *)
Definition declare (r : gcpResource) : Engine gcpResource := λ reg,
  (r, reg ++ [r]).

(** [for (const x of xs) body]. *)
Fixpoint forOf {A} (xs : list A) (body : A → Engine gcpResource) : Engine unit :=
  match xs with
  | [] => mret ()
  | x :: xs => body x;; forOf xs body
  end.

(** The values given to [JSON.stringify] here: strings, arrays and
    object literals, whose properties print in the order written. *)
Inductive json : Type :=
  | JString (s : string)
  | JArray (elems : list json)
  | JObject (fields : list (string * json)).

Definition hexDigit (n : nat) : ascii :=
  ascii_of_nat (if (n <? 10)%nat then 48 + n else 87 + n).

(** One character of a JSON string: the quote and the backslash are
    escaped, a control character prints as its short escape or as
    [\u00xx]. *)
Definition quoteChar (c : ascii) : string :=
  let n := nat_of_ascii c in
  if (n =? 34)%nat then "\" +:+ String c ""
  else if (n =? 92)%nat then "\\"
  else if (n =? 8)%nat then "\b"
  else if (n =? 12)%nat then "\f"
  else if (n =? 10)%nat then "\n"
  else if (n =? 13)%nat then "\r"
  else if (n =? 9)%nat then "\t"
  else if (n <? 32)%nat
       then "\u00" +:+ String (hexDigit (n / 16)) (String (hexDigit (n mod 16)) "")
  else String c "".

Fixpoint quoteChars (s : string) : string :=
  match s with
  | EmptyString => EmptyString
  | String c s' => quoteChar c +:+ quoteChars s'
  end.

Definition doubleQuote : string := String (ascii_of_nat 34) "".

(** QuoteJSONString. *)
Definition quote (s : string) : string :=
  doubleQuote +:+ quoteChars s +:+ doubleQuote.

(** [JSON.stringify] without indentation. *)
Fixpoint stringify (j : json) : string :=
  match j with
  | JString s => quote s
  | JArray elems => "[" +:+ joinStrs "," (map stringify elems) +:+ "]"
  | JObject fields =>
      "{" +:+ joinStrs ","
                (map (λ kv, quote (fst kv) +:+ ":" +:+ stringify (snd kv)) fields)
      +:+ "}"
  end.

(** [WorkloadIdentityConfiguration]. *)
Record WorkloadIdentityConfiguration : Type := {
  projectId : output;
  projectRoles : list string;
  workload : string;
  workloadNamespace : string;
  options : option loc;
  workloadProject : option output;
}.

(** The document given as [policyData] for the project id [wpId]. *)
Definition policyDocument (wi : WorkloadIdentityConfiguration) (wpId : string)
  : json :=
  JObject
    [("bindings",
      JArray
        [JObject
           [("members",
             JArray
               [JString ("serviceAccount:" +:+ wpId +:+ ".svc.id.goog["
                         +:+ wi.(workloadNamespace) +:+ "/" +:+ wi.(workload)
                         +:+ "]")]);
            ("role", JString "roles/iam.workloadIdentityUser")]])].

(** [workloadIdentity]. *)
Definition workloadIdentity (wi : WorkloadIdentityConfiguration)
  : Engine gcpResource :=
  let workloadProject := default wi.(projectId) wi.(workloadProject) in
  let wiServiceAccountName := String.substring 0 30 ("sa-wi-" +:+ wi.(workload)) in
  wiServiceAccount ←
    declare (serviceAccount_Account
               wiServiceAccountName
               wiServiceAccountName
               ("GKE Workload Identity Service Account for "
                +:+ wi.(workloadNamespace) +:+ "/" +:+ wi.(workload))
               (wi.(workload) +:+ " Workload Identity Service Account")
               workloadProject
               wi.(options));
  forOf wi.(projectRoles) (λ role,
    declare (projects_IAMMember
               ("sa-wi-" +:+ wi.(workload) +:+ "-" +:+ simpleRoleName role
                +:+ "-member")
               (OutConcat "serviceAccount:" (email wiServiceAccount))
               wi.(projectId)
               role
               wi.(options)));;
  declare (serviceAccount_IAMPolicy
             ("sa-wi-" +:+ wi.(workload) +:+ "-policy")
             (OutApply workloadProject
                (λ wpId, stringify (policyDocument wi wpId)))
             (id wiServiceAccount)
             wi.(options));;
  mret wiServiceAccount.

End Iam.

(** ** [config.ts] *)

Module Config.

(** [v || d]. *)
Definition orElse (v d : value) : value := if truthy v then v else d.

(** [s.replace(/p$/, "")] for a literal, non-empty [p]: the anchored
    pattern matches at the end of the string or nowhere. *)
Fixpoint replaceTrailing (p s : string) : string :=
  if s =? p then ""
  else match s with
       | EmptyString => ""
       | String c s' => String c (replaceTrailing p s')
       end.

(** [purpose], from the configured value ([config.get] gives a string or
    [undefined]) and [gcpProject]. *)
Definition purpose (configured : value) (gcpProject : string) : value :=
  orElse configured (VStr (replaceTrailing "-cluster" gcpProject)).

(** [gkeConfig], from what [config.getObject("gke")] gives. *)
Definition gkeConfig (configured : value) : value :=
  orElse configured (VObj ∅).

(** [maxNodeCount] and [minNodeCount].  Like the names read in
    [lib/k8s.ts], these two are on no prototype. *)
Definition maxNodeCount (configured : value) : result value :=
  n ← getProp (gkeConfig configured) "maxNodeCount"; Ok (orElse n (VNum 3)).

Definition minNodeCount (configured : value) : result value :=
  n ← getProp (gkeConfig configured) "minNodeCount"; Ok (orElse n (VNum 1)).

End Config.

(** ** Further vocabulary *)

#[global] Instance Family_eq_dec : EqDecision Family.
Proof. solve_decision. Defined.

(** The classes of the two foundational kinds. *)
Definition foundationalFamilies : list Family :=
  [ core_v1_Namespace;
    apiextensions_v1beta1_CustomResourceDefinition;
    apiextensions_v1_CustomResourceDefinition ].

(** A field that is absent, or a string without a slash. *)
Definition slashFree (v : value) : Prop :=
  match v with
  | VUndefined => True
  | VStr s => occurs "/" s = false
  | _ => False
  end.

(** ** Further samples *)

Definition webLowerKind : value :=
  manifest (VStr "deployment") [("name", VStr "web"); ("namespace", VStr "ns1")].

Definition emptyDocuments : ResourcesFromSpecsArgs :=
  {| options := 1%positive; specs := [VNull; VUndefined; VStr "text"; VArr [web]];
     transform := None |}.

(** The declarations of one call of [workloadIdentity], named. *)
Definition wiAccountName (wi : Iam.WorkloadIdentityConfiguration) : string :=
  "sa-wi-" +:+ String.substring 0 24 wi.(Iam.workload).

Definition wiMember (wi : Iam.WorkloadIdentityConfiguration)
    (account : Iam.gcpResource) (role : string) : Iam.gcpResource :=
  Iam.projects_IAMMember
    ("sa-wi-" +:+ wi.(Iam.workload) +:+ "-" +:+ Iam.simpleRoleName role
     +:+ "-member")
    (Iam.OutConcat "serviceAccount:" (Iam.email account))
    wi.(Iam.projectId) role wi.(Iam.options).

Definition sampleIdentity : Iam.WorkloadIdentityConfiguration :=
  {| Iam.projectId := Iam.OutGiven "dnsProject";
     Iam.projectRoles := ["roles/dns.admin"; "roles/logging.logWriter"];
     Iam.workload := "external-dns";
     Iam.workloadNamespace := "external-dns";
     Iam.options := Some 1%positive;
     Iam.workloadProject := Some (Iam.OutGiven "clusterProject") |}.

(** The names of the [IAMMember] resources among the declared ones. *)
Definition declaredMembers (reg : list Iam.gcpResource) : list string :=
  omap (λ r, match r with
             | Iam.projects_IAMMember name _ _ _ _ => Some name
             | _ => None
             end) reg.

Definition wiAccount (wi : Iam.WorkloadIdentityConfiguration)
  : Iam.gcpResource :=
  Iam.serviceAccount_Account
    (String.substring 0 30 ("sa-wi-" +:+ wi.(Iam.workload)))
    (String.substring 0 30 ("sa-wi-" +:+ wi.(Iam.workload)))
    ("GKE Workload Identity Service Account for "
     +:+ wi.(Iam.workloadNamespace) +:+ "/" +:+ wi.(Iam.workload))
    (wi.(Iam.workload) +:+ " Workload Identity Service Account")
    (default wi.(Iam.projectId) wi.(Iam.workloadProject))
    wi.(Iam.options).

Definition wiPolicy (wi : Iam.WorkloadIdentityConfiguration)
    (account : Iam.gcpResource) : Iam.gcpResource :=
  Iam.serviceAccount_IAMPolicy
    ("sa-wi-" +:+ wi.(Iam.workload) +:+ "-policy")
    (Iam.OutApply (default wi.(Iam.projectId) wi.(Iam.workloadProject))
       (λ wpId, Iam.stringify (Iam.policyDocument wi wpId)))
    (Iam.id account)
    wi.(Iam.options).



Definition kindFive : value := manifest (VNum 5) [("name", VStr "x")].

Definition kindFiveArgs : ResourcesFromSpecsArgs :=
  {| options := 1%positive; specs := [ns1; kindFive]; transform := None |}.

Definition longIdentity (suffix : string) : Iam.WorkloadIdentityConfiguration :=
  {| Iam.projectId := Iam.OutGiven "dnsProject";
     Iam.projectRoles := [];
     Iam.workload := "a-workload-name-of-24-ch" +:+ suffix;
     Iam.workloadNamespace := "default";
     Iam.options := None;
     Iam.workloadProject := None |}.

(** * Auxiliary facts *)

Section strings.

Lemma string_app_length (s t : string) :
  String.length (s +:+ t) = (String.length s + String.length t)%nat.
Proof. induction s as [|c s IH]; simpl; [done | by f_equal]. Qed.

Lemma string_app_cons c (s t : string) : String c s +:+ t = String c (s +:+ t).
Proof. reflexivity. Qed.

Lemma string_app_assoc (s t u : string) : (s +:+ t) +:+ u = s +:+ (t +:+ u).
Proof.
  induction s as [|c s IH]; [done |].
  by rewrite !string_app_cons, IH.
Qed.

Lemma string_app_inv_tail (s1 s2 t : string) : s1 +:+ t = s2 +:+ t → s1 = s2.
Proof.
  revert s2. induction s1 as [|c s1 IH]; intros [|d s2] H;
    rewrite ?string_app_cons in H; simpl in *.
  - done.
  - apply (f_equal String.length) in H.
    rewrite ?string_app_length in H. simpl in H.
    rewrite ?string_app_length in H. lia.
  - apply (f_equal String.length) in H.
    rewrite ?string_app_length in H. simpl in H.
    rewrite ?string_app_length in H. lia.
  - injection H as -> H. f_equal. by apply IH.
Qed.

Lemma string_eqb_false (s t : string) : s ≠ t → (s =? t) = false.
Proof. by intros; apply String.eqb_neq. Qed.

End strings.

Section js_facts.

Lemma joinElem_truthy v : truthy v = true → joinElem v = toString v.
Proof. by destruct v. Qed.

Lemma truthy_optChain_obj v k :
  truthy (optChain v k) = true → ∃ fields, v = VObj fields.
Proof. destruct v; simpl; try done. eauto. Qed.

Lemma getProp_obj f k : getProp (VObj f) k = Ok (optChain (VObj f) k).
Proof. done. Qed.

Lemma kindOf_str_obj spec k : kindOf spec = VStr k → ∃ f, spec = VObj f.
Proof. unfold kindOf. destruct spec; simpl; try done. eauto. Qed.

Lemma truthy_str s : s ≠ "" → truthy (VStr s) = true.
Proof. intros H. simpl. by rewrite (string_eqb_false _ _ H). Qed.

Lemma printable_toString v : printable v = true → toString v = Ok (textOf v).
Proof. unfold printable, textOf. by destruct (toString v). Qed.

End js_facts.

(** * The name of a spec *)

Section naming.

(** [parts.join("/")] on the parts that [specResourceName] collects. *)
Lemma join_parts (b : bool) (k : string) (ns name : value) :
  truthy name = true → (b = true → truthy ns = true) →
  join ([VStr "k8s"; VStr (lowerString k)]
          ++ (if b then [ns] else []) ++ [name]) "/"
  = if b
    then s ← toString ns; n ← toString name; Ok (identifierWith true k s n)
    else n ← toString name; Ok (identifierWith false k "" n).
Proof.
  intros Hname Hns. unfold join, identifierWith.
  destruct b; cbn [app mapM mbind result_bind mret result_ret joinElem toString];
    rewrite ?(joinElem_truthy _ Hname), ?(joinElem_truthy _ (Hns eq_refl)).
  - destruct (toString ns) as [s | e]; [| done].
    cbn [mbind result_bind]. destruct (toString name) as [n | e]; [| done].
    reflexivity.
  - destruct (toString name) as [n | e]; [| done]. reflexivity.
Qed.

Lemma specResourceName_skipped spec :
  truthy (kindOf spec) = false ∨ truthy (nameOf spec) = false →
  specResourceName spec = Ok None.
Proof.
  unfold specResourceName, kindOf, nameOf. intros [-> | ->]; [done |].
  by rewrite orb_true_r.
Qed.

Lemma specResourceName_named spec k :
  kindOf spec = VStr k → k ≠ "" → truthy (nameOf spec) = true →
  specResourceName spec
  = Some <$> identifier k (namespaceOf spec) (nameOf spec).
Proof.
  intros Hk Hne Hname.
  destruct (kindOf_str_obj _ _ Hk) as [f ->].
  unfold specResourceName, nameOf, namespaceOf, kindOf in *.
  rewrite Hk, Hname. simpl truthy.
  rewrite (string_eqb_false _ _ Hne). cbn [negb orb].
  rewrite (getProp_obj f "kind"), Hk.
  destruct (truthy_optChain_obj _ _ Hname) as [m Hm].
  rewrite (getProp_obj f "metadata"), Hm in *.
  cbn [mbind result_bind toLowerCase].
  rewrite !(getProp_obj m).
  unfold identifier, namespaceSegment. cbn [strictEqStr].
  destruct (negb (lowerString k =? "namespace")
            && truthy (optChain (VObj m) "namespace")) eqn:E;
    cbn [mbind result_bind]; f_equal.
  - apply (join_parts true k (optChain (VObj m) "namespace")
             (optChain (VObj m) "name")); [done |].
    intros _. by apply andb_true_iff in E as [_ ?].
  - by apply (join_parts false k VUndefined (optChain (VObj m) "name")).
Qed.

Lemma specResourceName_illTyped spec :
  illTyped spec = true → specResourceName spec = Throw TypeError.
Proof.
  unfold illTyped, specResourceName, kindOf, nameOf.
  destruct spec as [| | | | |l|f]; simpl; try done.
  destruct (default VUndefined (f !! "kind")) as [| |b|z|s| |] eqn:Hk;
    simpl; try done; intros H;
    try (apply andb_true_iff in H as [H1 H]; try rewrite H1);
    rewrite H; done.
Qed.

(** The three cases are all there are. *)
Lemma spec_cases spec :
  (illTyped spec = true ∧ materializable spec = false
   ∧ ∀ k, kindOf spec ≠ VStr k)
  ∨ (illTyped spec = false ∧ materializable spec = false
     ∧ (truthy (kindOf spec) = false ∨ truthy (nameOf spec) = false))
  ∨ (illTyped spec = false ∧ materializable spec = true
     ∧ ∃ k, kindOf spec = VStr k ∧ k ≠ "" ∧ truthy (nameOf spec) = true).
Proof.
  unfold illTyped, materializable.
  destruct (kindOf spec) as [| |b|z|s|l|f] eqn:Hk; simpl.
  - right; left; auto.
  - right; left; auto.
  - destruct b; simpl; [| right; left; auto].
    destruct (truthy (nameOf spec)); [left | right; left]; auto.
  - destruct (z =? 0)%Z; simpl; [right; left; auto |].
    destruct (truthy (nameOf spec)); [left | right; left]; auto.
  - destruct (String.eqb_spec s "") as [-> | Hne]; simpl.
    { right; left; auto. }
    destruct (truthy (nameOf spec)); [right; right | right; left]; eauto 10.
  - destruct (truthy (nameOf spec)); [left | right; left]; auto.
  - destruct (truthy (nameOf spec)); [left | right; left]; auto.
Qed.

Lemma identifier_nonempty k ns name id :
  identifier k ns name = Ok id → (id =? "") = false.
Proof.
  unfold identifier.
  destruct (namespaceSegment k ns), (toString ns), (toString name);
    cbn [mbind result_bind]; try done; intros [= <-]; reflexivity.
Qed.

(** The identifier of a spec whose name, and whose namespace if it is
    truthy, can be converted to strings. *)
Lemma identifier_printable k ns name :
  printable name = true → falsyOrPrintable ns →
  identifier k ns name
  = Ok (identifierWith (namespaceSegment k ns) k (textOf ns) (textOf name)).
Proof.
  intros Hn Hns. unfold identifier. rewrite (printable_toString _ Hn).
  destruct (namespaceSegment k ns) eqn:E; cbn [mbind result_bind].
  - apply andb_true_iff in E as [_ E].
    by rewrite (printable_toString _ (Hns E)).
  - reflexivity.
Qed.

Lemma specResourceName_printable spec k :
  kindOf spec = VStr k → k ≠ "" →
  truthy (nameOf spec) = true → printable (nameOf spec) = true →
  falsyOrPrintable (namespaceOf spec) →
  specResourceName spec
  = Ok (Some (identifierWith (namespaceSegment k (namespaceOf spec)) k
                (textOf (namespaceOf spec)) (textOf (nameOf spec)))).
Proof.
  intros Hk Hne Hname Hp Hns.
  by rewrite (specResourceName_named _ _ Hk Hne Hname), identifier_printable.
Qed.

(** A spec that has a name has a kind that is a string. *)
Lemma specResourceName_Some spec id :
  specResourceName spec = Ok (Some id) →
  ∃ k, kindOf spec = VStr k ∧ k ≠ "" ∧ truthy (nameOf spec) = true
       ∧ identifier k (namespaceOf spec) (nameOf spec) = Ok id.
Proof.
  intros H.
  destruct (spec_cases spec)
    as [(Hi & _) | [(_ & _ & Hs) | (_ & _ & k & Hk & Hne & Hname)]].
  - by rewrite (specResourceName_illTyped _ Hi) in H.
  - by rewrite (specResourceName_skipped _ Hs) in H.
  - exists k. rewrite (specResourceName_named _ _ Hk Hne Hname) in H.
    destruct (identifier k _ _) as [id' | e]; [| done].
    by injection H as <-.
Qed.

End naming.

(** * Dispatch is the table *)

Section dispatch.

Context {sdk : Sdk}.

Lemma handleOf_not_materializable o spec :
  materializable spec = false → handleOf o spec = None.
Proof. unfold handleOf. intros ->. by destruct (kindOf spec). Qed.

Lemma raises_not_materializable spec :
  illTyped spec = false → materializable spec = false → raises spec = None.
Proof. unfold raises. intros -> ->. by destruct (kindOf spec). Qed.

(** The chain of comparisons of [createSpecResource] on a string kind. *)
Lemma createSpecResource_dispatch spec o k id :
  kindOf spec = VStr k → specResourceName spec = Ok (Some id) →
  createSpecResource spec o
  = Some <$> construct (familyOf k (apiVersionOf spec)) id spec o.
Proof.
  intros Hk Hid. unfold createSpecResource. rewrite Hid.
  destruct (specResourceName_Some _ _ Hid) as (k' & Hk' & _ & _ & Hid').
  cbn [mbind result_bind]. rewrite (identifier_nonempty _ _ _ _ Hid').
  destruct (kindOf_str_obj _ _ Hk) as [f ->].
  rewrite (getProp_obj f "kind"), (getProp_obj f "apiVersion").
  fold (kindOf (VObj f)). fold (apiVersionOf (VObj f)). rewrite Hk.
  cbn [mbind result_bind strictEqStr].
  unfold familyOf, kindTable, revisionTable. cbn [assoc].
  repeat (destruct (k =? _);
          [first [reflexivity | by destruct (strictEqStr _ _)] |]).
  reflexivity.
Qed.

Lemma createSpecResource_total spec o :
  createSpecResource spec o
  = match raises spec with
    | Some e => Throw e
    | None => Ok (handleOf o spec)
    end.
Proof.
  destruct (spec_cases spec)
    as [(Hi & Hm & Hk) | [(Hi & Hm & Hs) | (Hi & Hm & k & Hk & Hne & Hname)]].
  - unfold createSpecResource. rewrite (specResourceName_illTyped _ Hi).
    unfold raises. rewrite Hi. destruct (kindOf spec); try done.
    by destruct (Hk s).
  - unfold createSpecResource. rewrite (specResourceName_skipped _ Hs).
    by rewrite raises_not_materializable, handleOf_not_materializable.
  - pose proof (specResourceName_named _ _ Hk Hne Hname) as Hid.
    unfold raises, handleOf. rewrite Hk, Hm.
    destruct (identifier k (namespaceOf spec) (nameOf spec)) as [id | e].
    + rewrite (createSpecResource_dispatch _ _ _ _ Hk Hid).
      unfold construct. by destruct (constructorThrows _ _ _).
    + unfold createSpecResource. by rewrite Hid.
Qed.

(** [.map(s => createSpecResource(s, o))] stops at the first spec on
    which dispatch throws; without one it builds the handles of all. *)
Lemma mapM_createSpecResource o (l : list value) :
  mapM (λ s, createSpecResource s o) l
  = match firstRaise l with
    | Some e => Throw e
    | None => Ok (map (handleOf o) l)
    end.
Proof.
  induction l as [|s l IH]; [done |].
  cbn [mapM firstRaise map]. rewrite createSpecResource_total.
  destruct (raises s); [done |].
  cbn [mbind result_bind].
  change (mapM (λ s0, createSpecResource s0 o) l ≫= _)
    with (mapM (λ s0, createSpecResource s0 o) l
            ≫= λ k, mret (handleOf o s :: k)).
  rewrite IH. by destruct (firstRaise l).
Qed.

Lemma firstRaise_app l1 l2 :
  firstRaise (l1 ++ l2)
  = match firstRaise l1 with
    | Some e => Some e
    | None => firstRaise l2
    end.
Proof.
  induction l1 as [|s l1 IH]; [done |]. cbn. by destruct (raises s).
Qed.

Lemma firstRaise_None l : firstRaise l = None ↔ Forall (λ s, raises s = None) l.
Proof.
  induction l as [|s l IH]; cbn.
  { split; [constructor | done]. }
  rewrite Forall_cons. destruct (raises s); [| by rewrite IH; intuition].
  split; [done | by intros [? _]].
Qed.

End dispatch.

Section dispatch_properties.

Lemma familyOf_unmapped k api :
  k ∉ mappedKinds → familyOf k api = apiextensions_CustomResource.
Proof.
  unfold mappedKinds, kindTable, revisionTable. cbn [map fst app].
  rewrite !not_elem_of_cons. intros H.
  unfold familyOf, kindTable, revisionTable. cbn [assoc].
  repeat (let Hk := fresh "Hk" in
          destruct H as [Hk H]; rewrite (string_eqb_false _ _ Hk)).
  done.
Qed.

End dispatch_properties.

(** * Schema revisions *)

Section revisions.

Lemma strictEqStr_spec v s : (v === s) = true ↔ v = VStr s.
Proof.
  destruct v; simpl; try (split; [done | by intros [=]]).
  rewrite String.eqb_eq. split; [by intros -> | by intros [= ->]].
Qed.

Lemma familyOf_revision k beta fbeta fv1 api :
  assoc k kindTable = None → assoc k revisionTable = Some (beta, fbeta, fv1) →
  fbeta ≠ fv1 →
  (familyOf k api = fbeta ↔ api = VStr beta)
  ∧ (familyOf k api = fv1 ↔ api ≠ VStr beta).
Proof.
  intros H1 H2 Hd. unfold familyOf. rewrite H1, H2.
  rewrite <- (strictEqStr_spec api beta).
  destruct (api === beta); split; split; try done; by intros [].
Qed.

Lemma familyOf_single_revision k api api' :
  k ∉ map fst revisionTable → familyOf k api = familyOf k api'.
Proof.
  unfold revisionTable. cbn [map fst]. rewrite !not_elem_of_cons.
  intros (H1 & H2 & H3 & _). unfold familyOf.
  destruct (assoc k kindTable); [done |].
  unfold revisionTable. cbn [assoc].
  by rewrite !string_eqb_false.
Qed.

End revisions.

(** * One run of the materializer *)

Section run.

Context {sdk : Sdk}.

Lemma firstKind_isFoundational s : firstKind s = isFoundational s.
Proof.
  unfold firstKind, isFoundational, kindOf, foundationalKinds.
  destruct (optChain s "kind") as [| | | |k| |]; simpl; try done.
  destruct (String.eqb_spec k "CustomResourceDefinition") as [-> | H1];
    [done |].
  destruct (String.eqb_spec k "Namespace") as [-> | H2]; [done |].
  simpl. symmetry. apply bool_decide_eq_false.
  rewrite !elem_of_cons, elem_of_nil. by intros [? | [? | []]].
Qed.

Lemma restKind_isDependent s : restKind s = isDependent s.
Proof.
  unfold isDependent. rewrite <- firstKind_isFoundational.
  unfold restKind, firstKind. by rewrite negb_orb.
Qed.

Lemma isFoundational_spec s : isFoundational s = true ↔ foundational s.
Proof.
  unfold isFoundational, foundational, foundationalKinds.
  destruct (kindOf s) as [| | | |k| |];
    try (split; [done | by intros [? | ?]]).
  rewrite bool_decide_eq_true, !elem_of_cons, elem_of_nil. split.
  - intros [-> | [-> | []]]; auto.
  - intros [[= ->] | [= ->]]; auto.
Qed.

Lemma filter_firstKind l : List.filter firstKind l = List.filter isFoundational l.
Proof. apply filter_ext. intros. apply firstKind_isFoundational. Qed.

Lemma filter_restKind l : List.filter restKind l = List.filter isDependent l.
Proof. apply filter_ext. intros. apply restKind_isDependent. Qed.

Lemma definedResources_map {A} (f : A → option Resource) l :
  definedResources (map f l) = omap f l.
Proof.
  unfold definedResources.
  induction l as [|a l IH]; [done |].
  cbn [map]. destruct (f a) as [r|] eqn:E; cbn; by rewrite E, IH.
Qed.

(** The run in closed form: a throw in tier 1 leaves the store as it
    was; otherwise one object is allocated for the dependent tier. *)
Lemma resourcesFromSpecs_run args σ :
  resourcesFromSpecs args σ
  = match firstRaise (tier1 args) with
    | Some e => (Throw e, σ)
    | None =>
      let first := firstHandles args in
      let l := fresh (dom σ) in
      let σ' :=
        <[l := dependentOptions (default ∅ (σ !! args.(options))) first]> σ in
      match firstRaise (tier2 args) with
      | Some e => (Throw e, σ')
      | None => (Ok (first ++ omap (handleOf l) (tier2 args)), σ')
      end
    end.
Proof.
  unfold resourcesFromSpecs, tier1, tier2, firstHandles, effective.
  rewrite filter_firstKind, filter_restKind.
  set (t := default (λ i, i) (transform args)).
  set (F := map t (List.filter isFoundational (specs args))).
  set (R := map t (List.filter isDependent (specs args))).
  unfold mbind at 1, M_bind, lift. rewrite mapM_createSpecResource.
  destruct (firstRaise F); [done |].
  rewrite definedResources_map.
  set (first := omap (handleOf (options args)) F).
  unfold mbind at 1, M_bind, spread.
  set (l := fresh (dom σ)).
  unfold mbind at 1, M_bind.
  assert (Hσ :
    (if (0 <? length first)%nat
     then setProp l "dependsOn" (OResources first) else mret ())
      (<[l := default ∅ (σ !! options args)]> σ)
    = (Ok (),
       <[l := dependentOptions (default ∅ (σ !! options args)) first]> σ)).
  { destruct first as [|r first]; simpl; [done |].
    unfold setProp. by rewrite alter_insert_eq. }
  rewrite Hσ. unfold mbind at 1, M_bind.
  rewrite mapM_createSpecResource.
  destruct (firstRaise R); [done |].
  by rewrite definedResources_map.
Qed.

End run.

(** * The two tiers *)

Section tiers.

Context {sdk : Sdk}.

Lemma handleOf_Some o spec r :
  handleOf o spec = Some r →
  props r = spec ∧ opts r = o ∧ materializable spec = true.
Proof.
  unfold handleOf. destruct (kindOf spec); try done.
  destruct (materializable spec); [| done].
  destruct (identifier _ _ _); [| done]. by intros [= <-].
Qed.

Lemma handles_opts o l : Forall (λ r, opts r = o) (omap (handleOf o) l).
Proof.
  apply Forall_forall. intros r (s & _ & Hs)%list_elem_of_omap.
  by apply handleOf_Some in Hs as (_ & ? & _).
Qed.

(** Without a throw, each spec that can be materialized has its handle. *)
Lemma handleOf_is_Some o spec :
  raises spec = None → materializable spec = true →
  ∃ r, handleOf o spec = Some r.
Proof.
  unfold raises, handleOf. intros Hr Hm. rewrite Hm in *.
  unfold materializable in Hm.
  destruct (kindOf spec); try done.
  destruct (identifier _ _ _); [eauto | done].
Qed.

Lemma handles_props o l :
  firstRaise l = None →
  map props (omap (handleOf o) l) = List.filter materializable l.
Proof.
  induction l as [|s l IH]; [done |]. cbn.
  destruct (raises s) eqn:Hr; [done |]. intros Hl.
  destruct (handleOf o s) as [r|] eqn:E.
  - apply handleOf_Some in E as (<- & _ & ->). cbn. f_equal. by apply IH.
  - destruct (materializable s) eqn:Hm; [| by apply IH].
    destruct (handleOf_is_Some o _ Hr Hm) as [r Hs]. congruence.
Qed.

Lemma no_raise_tier (t : value → value) (p : value → bool) l :
  Forall (λ s, raises (t s) = None) l →
  firstRaise (map t (List.filter p l)) = None.
Proof.
  induction 1 as [|s l Hs _ IH]; [done |]. cbn.
  destruct (p s); [| done]. cbn. by rewrite Hs, IH.
Qed.

End tiers.

(** * The options of the dependent tier *)

Section dependent_options.

Context {sdk : Sdk}.

Lemma dependentOptions_other o first k :
  k ≠ "dependsOn" → dependentOptions o first !! k = o !! k.
Proof.
  intros Hk. destruct first; [done |]. cbn. by rewrite lookup_insert_ne.
Qed.

Lemma dependentOptions_dependsOn o first :
  first ≠ [] →
  dependentOptions o first !! "dependsOn" = Some (OResources first).
Proof. destruct first; [done |]. intros _. cbn. by rewrite lookup_insert_eq. Qed.

(** A successful run, seen from the store. *)
Lemma resourcesFromSpecs_Ok args σ out σ' :
  resourcesFromSpecs args σ = (Ok out, σ') →
  let l := fresh (dom σ) in
  out = firstHandles args ++ omap (handleOf l) (tier2 args)
  ∧ σ' = <[l := dependentOptions (default ∅ (σ !! args.(options)))
                                 (firstHandles args)]> σ.
Proof.
  rewrite resourcesFromSpecs_run.
  destruct (firstRaise (tier1 args)); [done |]. cbn zeta.
  destruct (firstRaise (tier2 args)); [done |].
  by intros [= <- <-].
Qed.

(** In a successful run dispatch throws on no spec. *)
Lemma resourcesFromSpecs_Ok_raises args σ out σ' :
  resourcesFromSpecs args σ = (Ok out, σ') →
  firstRaise (tier1 args) = None ∧ firstRaise (tier2 args) = None.
Proof.
  rewrite resourcesFromSpecs_run.
  destruct (firstRaise (tier1 args)); [done |]. cbn zeta.
  by destruct (firstRaise (tier2 args)).
Qed.

(** A call returns when dispatch throws on no transformed spec. *)
Lemma resourcesFromSpecs_returns args σ :
  Forall (λ s, raises (effective args s) = None) args.(specs) →
  ∃ out σ', resourcesFromSpecs args σ = (Ok out, σ').
Proof.
  intros Hwt. rewrite resourcesFromSpecs_run. unfold tier1, tier2.
  rewrite !(no_raise_tier _ _ _ Hwt). cbn zeta. eauto.
Qed.

Lemma fresh_loc_None (σ : store) : σ !! fresh (dom σ) = None.
Proof. apply not_elem_of_dom, is_fresh. Qed.

End dependent_options.

(** * Omission *)

Section omission.

Context {sdk : Sdk}.
Variable t : value → value.
Variable p : value → bool.

Lemma raises_omitted_tier before s after :
  t s = VUndefined →
  firstRaise (map t (List.filter p (before ++ s :: after)))
  = firstRaise (map t (List.filter p (before ++ after))).
Proof.
  intros Hs. rewrite !List.filter_app, !map_app, !firstRaise_app. cbn.
  destruct (p s); [| done]. cbn. by rewrite Hs.
Qed.

Lemma handles_omitted_tier o before s after :
  t s = VUndefined →
  omap (handleOf o) (map t (List.filter p (before ++ s :: after)))
  = omap (handleOf o) (map t (List.filter p (before ++ after))).
Proof.
  intros Hs. rewrite !List.filter_app, !map_app, !omap_app. cbn.
  destruct (p s); [| done]. cbn. by rewrite Hs.
Qed.

End omission.

(** * Handles and the specs they come from *)

Section positions.

Lemma positionsFrom_spec n q l i :
  i ∈ positionsFrom n q l →
  (n ≤ i)%nat ∧ ∃ s, l !! (i - n) = Some s ∧ q s = true.
Proof.
  revert n. induction l as [|s l IH]; intros n; cbn.
  { by intros ?%elem_of_nil. }
  intros Hi.
  assert (Htail : i ∈ positionsFrom (S n) q l →
                  (n ≤ i)%nat ∧ ∃ s', (s :: l) !! (i - n) = Some s' ∧ q s' = true).
  { intros (Hle & s' & Hs' & Hq)%IH. split; [lia |]. exists s'.
    split; [| done]. by replace (i - n) with (S (i - S n)) by lia. }
  destruct (q s) eqn:Hq; [| by apply Htail].
  apply elem_of_cons in Hi as [-> | Hi]; [| by apply Htail].
  split; [lia |]. exists s. by rewrite Nat.sub_diag.
Qed.

Lemma positionsFrom_NoDup n q l : NoDup (positionsFrom n q l).
Proof.
  revert n. induction l as [|s l IH]; intros n; cbn; [constructor |].
  destruct (q s); [| apply IH].
  constructor; [| apply IH].
  intros [Hle _]%positionsFrom_spec. lia.
Qed.

Lemma materializable_present spec :
  materializable spec = true →
  present (kindOf spec) ∧ present (nameOf spec).
Proof.
  unfold materializable, present.
  destruct (kindOf spec); try done.
  intros [_ Hname]%andb_true_iff. split; [done |].
  by destruct (nameOf spec).
Qed.

(** Each handle of a tier is the handle of the spec at one position. *)
Lemma tier_handles_positions (t : value → value) (p : value → bool) o l n :
  Forall2 (λ r i, (n ≤ i)%nat ∧ ∃ s, l !! (i - n) = Some s
                               ∧ handleOf o (t s) = Some r)
    (omap (handleOf o) (map t (List.filter p l)))
    (positionsFrom n (λ s, p s && bool_decide (is_Some (handleOf o (t s)))) l).
Proof.
  revert n. induction l as [|s l IH]; intros n; cbn; [constructor |].
  assert (Htail :
    Forall2 (λ r i, (n ≤ i)%nat ∧ ∃ s', (s :: l) !! (i - n) = Some s'
                                  ∧ handleOf o (t s') = Some r)
      (omap (handleOf o) (map t (List.filter p l)))
      (positionsFrom (S n)
         (λ s, p s && bool_decide (is_Some (handleOf o (t s)))) l)).
  { eapply Forall2_impl; [apply (IH (S n)) |]. cbn.
    intros r i (Hle & s' & Hs' & Hr). split; [lia |]. exists s'.
    split; [| done]. by replace (i - n) with (S (i - S n)) by lia. }
  destruct (p s); cbn; [| done].
  destruct (handleOf o (t s)) as [r|] eqn:Hr.
  - rewrite bool_decide_eq_true_2 by eauto.
    constructor; [| done]. split; [lia |]. exists s.
    by rewrite Nat.sub_diag.
  - by rewrite bool_decide_eq_false_2 by by intros [? [=]].
Qed.

End positions.

(** * Properties of the materializer *)

(** C1, as stated, fails: the caller's options list [callerDependency]
    under [dependsOn]; the options the dependent spec [web] is created
    under list the handle of [ns1] there and no longer the caller's. *)
Lemma caller_dependency_replaced :
  ∃ first rest σ' o',
    resourcesFromSpecs (sdk := sampleSdk) twoTierArgs callerStore
    = (Ok [first; rest], σ')
    ∧ props first = ns1 ∧ props rest = web
    ∧ callerStore !! twoTierArgs.(options) = Some callerOptions
    ∧ σ' !! opts rest = Some o'
    ∧ carriesDependency callerOptions callerDependency
    ∧ carriesDependency o' first
    ∧ ¬ carriesDependency o' callerDependency.
Proof.
  set (l := fresh (dom callerStore)).
  set (first := new core_v1_Namespace "k8s/namespace/ns1" ns1 1%positive).
  set (o' := <["dependsOn" := OResources [first]]> callerOptions).
  exists first, (new apps_v1_Deployment "k8s/deployment/ns1/web" web l),
    (<[l := o']> callerStore), o'.
  split; [| split; [reflexivity | split; [reflexivity | split; [reflexivity |]]]].
  { rewrite resourcesFromSpecs_run.
    change (firstRaise (tier1 twoTierArgs)) with (@None exn).
    change (firstRaise (tier2 twoTierArgs)) with (@None exn).
    reflexivity. }
  split; [apply lookup_insert_eq |].
  split; [| split].
  - exists [callerDependency]. split; [reflexivity | apply list_elem_of_here].
  - exists [first]. split; [apply lookup_insert_eq | apply list_elem_of_here].
  - intros (rs & Hrs & Hin). unfold o' in Hrs.
    rewrite lookup_insert_eq in Hrs. injection Hrs as <-.
    apply list_elem_of_singleton in Hin. discriminate Hin.
Qed.

(** C1, amended: every dependent-tier spec is materialized under a copy
    of the caller's options in which [dependsOn] is set to the tier-1
    handles actually produced, taking the place of a [dependsOn] of the
    caller, while every other setting is the caller's; when tier 1
    produces no handle the copy has the caller's settings unmodified. *)
Theorem dependent_tier_options {sdk : Sdk}
    (args : ResourcesFromSpecsArgs) (σ σ' : store) (o : optionsObj)
    (out : list Resource) :
  σ !! args.(options) = Some o →
  resourcesFromSpecs args σ = (Ok out, σ') →
  ∃ (l : loc) (rest : list Resource) (o' : optionsObj),
    out = firstHandles args ++ rest
    ∧ rest = omap (handleOf l) (tier2 args)
    ∧ Forall (λ r, opts r = l) rest
    ∧ σ' !! l = Some o'
    ∧ (∀ k, k ≠ "dependsOn" → o' !! k = o !! k)
    ∧ (firstHandles args ≠ [] →
       o' !! "dependsOn" = Some (OResources (firstHandles args)))
    ∧ (firstHandles args = [] → o' = o).
Proof.
  intros Ho [-> ->]%resourcesFromSpecs_Ok. rewrite Ho. cbn [default].
  do 3 eexists. split; [reflexivity |]. split; [reflexivity |].
  split; [apply handles_opts |].
  split; [apply lookup_insert_eq |].
  split; [intros k; apply dependentOptions_other |].
  split; [apply dependentOptions_dependsOn |].
  by intros ->.
Qed.

Lemma dependent_tier_options_witness :
  ∃ (l : loc) (rest : list Resource) (o' : optionsObj),
    map name rest = ["k8s/deployment/ns1/web"]
    ∧ Forall (λ r, opts r = l) rest
    ∧ o' !! "provider" = Some (OOpaque "k8sProvider")
    ∧ o' !! "dependsOn" = Some (OResources (firstHandles twoTierArgs)).
Proof.
  destruct (resourcesFromSpecs_returns (sdk := sampleSdk) twoTierArgs
              callerStore) as (out & σ' & Hrun).
  { repeat constructor. }
  destruct (dependent_tier_options (sdk := sampleSdk) twoTierArgs callerStore
              σ' callerOptions out eq_refl Hrun)
    as (l & rest & o' & _ & Hrest & Hopts & _ & Hother & Hdep & _).
  exists l, rest, o'.
  split; [rewrite Hrest; reflexivity |].
  split; [exact Hopts |].
  split; [rewrite Hother; [reflexivity | discriminate] |].
  apply Hdep. discriminate.
Defined.

Section tiers_cover.

Context {sdk : Sdk}.

(** The two tiers hold the transforms of all input specs. *)
Lemma tiers_no_raise (t : value → value) l :
  firstRaise (map t (List.filter isFoundational l)) = None
  ∧ firstRaise (map t (List.filter isDependent l)) = None
  ↔ Forall (λ s, raises (t s) = None) l.
Proof.
  rewrite !firstRaise_None, !Forall_forall. unfold isDependent. split.
  - intros [H1 H2] s Hs. destruct (isFoundational s) eqn:E.
    + apply H1, list_elem_of_In, in_map, filter_In.
      by rewrite <- list_elem_of_In.
    + apply H2, list_elem_of_In, in_map, filter_In.
      by rewrite <- list_elem_of_In, E.
  - intros H.
    split; intros v (s & <- & [Hs _]%filter_In)%list_elem_of_In%in_map_iff;
      by apply H, list_elem_of_In.
Qed.

End tiers_cover.

(** C2: the specs are partitioned on their kind as given in the input,
    the foundational kinds being exactly ["CustomResourceDefinition"] and
    ["Namespace"]; the transform is applied to the specs of each part; and
    the result is the handles of the foundational specs in input order
    followed by the handles of the dependent specs in input order.  The
    call returns exactly when dispatch throws on none of the transformed
    specs: none has a truthy kind that is no string together with a truthy
    name, none has a name or a namespace whose conversion to a string
    throws, and the constructor throws for none. *)
Theorem tiers_in_order {sdk : Sdk} (args : ResourcesFromSpecsArgs) (σ : store) :
  (∀ s, isFoundational s = true ↔ foundational s)
  ∧ (∀ s, isDependent s = true ↔ ¬ foundational s)
  ∧ ((∃ out σ', resourcesFromSpecs args σ = (Ok out, σ'))
     ↔ Forall (λ s, raises (effective args s) = None) args.(specs))
  ∧ (∀ out σ', resourcesFromSpecs args σ = (Ok out, σ') →
     ∃ first rest l,
       out = first ++ rest
       ∧ first = omap (handleOf args.(options))
                   (map (effective args)
                      (List.filter isFoundational args.(specs)))
       ∧ rest = omap (handleOf l)
                  (map (effective args)
                     (List.filter isDependent args.(specs)))
       ∧ map props first
         = List.filter materializable
             (map (effective args) (List.filter isFoundational args.(specs)))
       ∧ map props rest
         = List.filter materializable
             (map (effective args) (List.filter isDependent args.(specs)))).
Proof.
  split; [apply isFoundational_spec |]. split.
  { intros s. unfold isDependent.
    rewrite negb_true_iff, <- not_true_iff_false.
    by rewrite isFoundational_spec. }
  split.
  - rewrite <- tiers_no_raise. fold (tier1 args). fold (tier2 args). split.
    + by intros (out & σ' & Hrun%resourcesFromSpecs_Ok_raises).
    + intros [H1 H2]. rewrite resourcesFromSpecs_run, H1. cbn zeta.
      rewrite H2. eauto.
  - intros out σ' Hrun.
    destruct (resourcesFromSpecs_Ok_raises _ _ _ _ Hrun) as [H1 H2].
    apply resourcesFromSpecs_Ok in Hrun as [-> _].
    do 3 eexists.
    split; [reflexivity |]. split; [reflexivity |]. split; [reflexivity |].
    split; by apply handles_props.
Qed.

Lemma tiers_in_order_witness :
  ∃ out σ',
    resourcesFromSpecs (sdk := sampleSdk) sampleArgs sampleStore = (Ok out, σ')
    ∧ map name out = ["k8s/namespace/ns1"; "k8s/deployment/ns1/web"].
Proof.
  destruct (tiers_in_order (sdk := sampleSdk) sampleArgs sampleStore)
    as (_ & _ & Hret & Hout).
  destruct (proj2 Hret) as (out & σ' & Hrun).
  { repeat constructor. }
  exists out, σ'. split; [exact Hrun |].
  destruct (Hout out σ' Hrun) as (first & rest & l & -> & -> & -> & _).
  reflexivity.
Defined.

(** C3, as stated, fails: a spec whose [kind] is present but empty, with
    its [metadata.name] present, yields no handle. *)
Lemma present_fields_without_handle :
  present (kindOf emptyKind) ∧ present (nameOf emptyKind)
  ∧ createSpecResource (sdk := sampleSdk) emptyKind 1%positive = Ok None.
Proof. by repeat split. Qed.

(** C3, amended: for a spec reaching dispatch whose [kind] is a non-empty
    string and whose [metadata.name] is truthy, the name, and the
    [metadata.namespace] if it is truthy, being convertible to strings,
    the constructor of exactly one class is called, the generic
    custom-resource class for a kind outside the fixed mapping and the
    class of the table otherwise; the spec yields the one handle that the
    constructor returns, and what the constructor throws is thrown.  A
    spec yields no handle and no error when either field is missing or
    falsy. *)
Theorem materialization_one_or_none {sdk : Sdk} (spec : value) (o : loc) :
  (∀ k, kindOf spec = VStr k → k ≠ "" →
     truthy (nameOf spec) = true → printable (nameOf spec) = true →
     falsyOrPrintable (namespaceOf spec) →
     ∃ id,
       let F := familyOf k (apiVersionOf spec) in
       specResourceName spec = Ok (Some id)
       ∧ (k ∉ mappedKinds → F = apiextensions_CustomResource)
       ∧ (constructorThrows F id spec = None →
          createSpecResource spec o = Ok (Some (new F id spec o)))
       ∧ (∀ e, constructorThrows F id spec = Some e →
          createSpecResource spec o = Throw e))
  ∧ (¬ present (kindOf spec) ∨ ¬ present (nameOf spec)
     ∨ truthy (kindOf spec) = false ∨ truthy (nameOf spec) = false →
     createSpecResource spec o = Ok None).
Proof.
  split.
  - intros k Hk Hne Hname Hp Hns.
    pose proof (specResourceName_printable _ _ Hk Hne Hname Hp Hns) as Hid.
    eexists. cbn zeta.
    split; [exact Hid |]. split; [apply familyOf_unmapped |].
    rewrite (createSpecResource_dispatch _ _ _ _ Hk Hid). unfold construct.
    split; [by intros -> | by intros e ->].
  - intros H. rewrite createSpecResource_total.
    assert (Hs : truthy (kindOf spec) = false ∨ truthy (nameOf spec) = false).
    { unfold present in H.
      destruct H as [H | [H | [H | H]]]; auto.
      - left. destruct (kindOf spec); try done; by destruct H.
      - right. destruct (nameOf spec); try done; by destruct H. }
    destruct (spec_cases spec)
      as [(Hi & Hm & _) | [(Hi & Hm & _) | (Hi & Hm & k & Hk & Hne & Hname)]].
    + unfold illTyped in Hi.
      destruct Hs as [Hs | Hs], (kindOf spec); simpl in *;
        rewrite ?Hs, ?andb_false_r in Hi; done.
    + by rewrite raises_not_materializable, handleOf_not_materializable.
    + rewrite Hk in Hs. simpl in Hs.
      rewrite (string_eqb_false _ _ Hne) in Hs. simpl in Hs.
      destruct Hs; congruence.
Qed.

Lemma materialization_one_or_none_witness :
  createSpecResource (sdk := sampleSdk) widget 1%positive
  = Ok (Some (new apiextensions_CustomResource "k8s/widget/w" widget
                1%positive))
  ∧ createSpecResource (sdk := sampleSdk) crdWithoutSpec 1%positive
    = Throw Error
  ∧ createSpecResource (sdk := sampleSdk) noName 1%positive = Ok None.
Proof.
  destruct (materialization_one_or_none (sdk := sampleSdk) widget 1%positive)
    as [H _].
  destruct (materialization_one_or_none (sdk := sampleSdk) crdWithoutSpec
              1%positive) as [H0 _].
  destruct (materialization_one_or_none (sdk := sampleSdk) noName 1%positive)
    as [_ H'].
  split; [| split].
  - destruct (H "Widget" eq_refl ltac:(discriminate) eq_refl eq_refl
                ltac:(discriminate))
      as (id & Hid & HF & Hr & _).
    injection Hid as <-. rewrite HF in Hr.
    + exact (Hr eq_refl).
    + apply (bool_decide_unpack _). vm_compute. exact I.
  - destruct (H0 "CustomResourceDefinition" eq_refl ltac:(discriminate)
                eq_refl eq_refl ltac:(discriminate))
      as (id & Hid & _ & _ & He).
    injection Hid as <-. exact (He Error eq_refl).
  - apply H'. right; left. intros Hp. apply Hp. reflexivity.
Defined.

(** C4, as stated, fails: a transform may supply the [kind] and the
    [metadata.name] that the input spec lacks, and the handle is built
    all the same. *)
Lemma handle_for_spec_without_fields :
  ∃ r σ',
    resourcesFromSpecs (sdk := sampleSdk) generateArgs callerStore
    = (Ok [r], σ')
    ∧ ∀ s, s ∈ generateArgs.(specs) →
           ¬ (present (kindOf s) ∧ present (nameOf s)).
Proof.
  do 2 eexists. split.
  { rewrite resourcesFromSpecs_run.
    change (firstRaise (tier1 generateArgs)) with (@None exn).
    change (firstRaise (tier2 generateArgs)) with (@None exn).
    reflexivity. }
  intros s ->%list_elem_of_singleton [Hk _]. by apply Hk.
Qed.

(** C4, amended: every handle in the output corresponds to exactly one
    input spec, the one at its own position of the input, and the
    transform of that spec has both [kind] and [metadata.name] present. *)
Theorem handles_correspond_to_specs {sdk : Sdk}
    (args : ResourcesFromSpecsArgs) (σ σ' : store) (out : list Resource) :
  resourcesFromSpecs args σ = (Ok out, σ') →
  ∃ idx : list nat,
    NoDup idx
    ∧ Forall2 (λ r i, ∃ s, args.(specs) !! i = Some s
                           ∧ props r = effective args s
                           ∧ present (kindOf (effective args s))
                           ∧ present (nameOf (effective args s)))
        out idx.
Proof.
  intros [-> _]%resourcesFromSpecs_Ok.
  set (t := effective args).
  set (l := fresh (dom σ)).
  exists (positionsFrom 0
            (λ s, isFoundational s
                  && bool_decide (is_Some (handleOf args.(options) (t s))))
            args.(specs)
          ++ positionsFrom 0
               (λ s, isDependent s && bool_decide (is_Some (handleOf l (t s))))
               args.(specs)).
  split.
  - apply NoDup_app. split; [apply positionsFrom_NoDup |].
    split; [| apply positionsFrom_NoDup].
    intros i (_ & s1 & Hs1 & [Hf _]%andb_true_iff)%positionsFrom_spec.
    intros (_ & s2 & Hs2 & [Hd _]%andb_true_iff)%positionsFrom_spec.
    assert (s2 = s1) as -> by congruence.
    unfold isDependent in Hd. by rewrite Hf in Hd.
  - assert (Himpl : ∀ o' (r : Resource) (i : nat),
      ((0 ≤ i)%nat ∧ ∃ s, args.(specs) !! (i - 0) = Some s
                    ∧ handleOf o' (t s) = Some r) →
      ∃ s, args.(specs) !! i = Some s ∧ props r = t s
           ∧ present (kindOf (t s)) ∧ present (nameOf (t s))).
    { intros o' r i (_ & s & Hs & Hr). rewrite Nat.sub_0_r in Hs.
      exists s. split; [done |].
      apply handleOf_Some in Hr as (Hp & _ & Hm).
      split; [done |]. by apply materializable_present. }
    apply Forall2_app.
    + eapply Forall2_impl; [apply tier_handles_positions |]. apply Himpl.
    + eapply Forall2_impl; [apply tier_handles_positions |]. apply Himpl.
Qed.

Lemma handles_correspond_to_specs_witness :
  ∃ (out : list Resource) (σ' : store) (idx : list nat),
    resourcesFromSpecs (sdk := sampleSdk) sampleArgs sampleStore = (Ok out, σ')
    ∧ NoDup idx
    ∧ Forall2 (λ r i, ∃ s, sampleArgs.(specs) !! i = Some s
                           ∧ props r = effective sampleArgs s
                           ∧ present (kindOf (effective sampleArgs s))
                           ∧ present (nameOf (effective sampleArgs s)))
        out idx.
Proof.
  destruct (resourcesFromSpecs_returns (sdk := sampleSdk) sampleArgs
              sampleStore) as (out & σ' & Hrun).
  { repeat constructor. }
  destruct (handles_correspond_to_specs (sdk := sampleSdk) sampleArgs
              sampleStore σ' out Hrun) as (idx & Hnd & Hall).
  exists out, σ', idx. split; [exact Hrun |]. split; [exact Hnd | exact Hall].
Defined.

(** C5: a spec for which the transform returns [undefined] produces no
    handle, and the call, in its result and in the store it leaves (which
    holds the options of the dependent tier and their [dependsOn]), is
    the call on the input without that spec. *)
Theorem omitted_spec_leaves_no_trace {sdk : Sdk}
    (o : loc) (t : option (value → value)) (before after : list value)
    (s : value) (σ : store) :
  default (λ i, i) t s = VUndefined →
  (∀ o', createSpecResource (default (λ i, i) t s) o' = Ok None)
  ∧ resourcesFromSpecs
      {| options := o; specs := before ++ s :: after; transform := t |} σ
    = resourcesFromSpecs
        {| options := o; specs := before ++ after; transform := t |} σ.
Proof.
  intros Hs. split; [by rewrite Hs |].
  rewrite !resourcesFromSpecs_run.
  unfold firstHandles, tier1, tier2, effective. cbn [options specs transform].
  rewrite !(raises_omitted_tier _ _ before s after Hs).
  rewrite !(handles_omitted_tier _ _ _ before s after Hs).
  reflexivity.
Qed.

Lemma omitted_spec_leaves_no_trace_witness :
  resourcesFromSpecs (sdk := sampleSdk)
    {| options := 1%positive; specs := [ns1] ++ service :: [web];
       transform := Some dropServices |} callerStore
  = resourcesFromSpecs (sdk := sampleSdk)
      {| options := 1%positive; specs := [ns1] ++ [web];
         transform := Some dropServices |} callerStore.
Proof.
  exact (proj2 (omitted_spec_leaves_no_trace (sdk := sampleSdk) 1%positive
                  (Some dropServices) [ns1] [web] service callerStore
                  eq_refl)).
Defined.

(** C6, as stated, fails in three ways: no identifier is derived for a
    spec whose [kind] is present but empty; a namespace that is present
    but empty adds no segment; and a kind that is not ["Namespace"] but
    lower-cases to it gets no segment for the namespace it carries. *)
Lemma identifier_format_exceptions :
  (present (kindOf emptyKind) ∧ present (nameOf emptyKind)
   ∧ specResourceName emptyKind = Ok None)
  ∧ (present (namespaceOf emptyNamespace)
     ∧ kindOf emptyNamespace = VStr "Deployment"
     ∧ specResourceName emptyNamespace = Ok (Some "k8s/deployment/web"))
  ∧ (namespaceOf upperNamespace = VStr "ns1"
     ∧ kindOf upperNamespace ≠ VStr "Namespace"
     ∧ specResourceName upperNamespace = Ok (Some "k8s/namespace/n")).
Proof. by repeat split. Qed.

(** C6, amended: for every spec whose [kind] is a non-empty string of
    ASCII characters and whose [metadata.name] is truthy, the name, and
    the [metadata.namespace] if it is truthy, being convertible to
    strings, the derived identifier is the prefix ["k8s"], the lower-cased
    kind, optionally the namespace, and the name, joined by ["/"]; the
    namespace segment is there exactly when [metadata.namespace] is truthy
    and the lower-cased kind is not ["namespace"]; a [Namespace]-kind spec
    never gets one. *)
Theorem identifier_format (spec : value) (k : string) :
  kindOf spec = VStr k → k ≠ "" → isAscii k = true →
  truthy (nameOf spec) = true → printable (nameOf spec) = true →
  falsyOrPrintable (namespaceOf spec) →
  ∃ withNamespace : bool,
    specResourceName spec
    = Ok (Some (identifierWith withNamespace k (textOf (namespaceOf spec))
                  (textOf (nameOf spec))))
    ∧ (withNamespace = true ↔
       truthy (namespaceOf spec) = true ∧ lowerString k ≠ "namespace")
    ∧ (k = "Namespace" → withNamespace = false).
Proof.
  intros Hk Hne _ Hname Hp Hns. exists (namespaceSegment k (namespaceOf spec)).
  split; [by apply specResourceName_printable |].
  unfold namespaceSegment. split.
  - rewrite andb_true_iff, negb_true_iff, String.eqb_neq. tauto.
  - by intros ->.
Qed.

Lemma identifier_format_witness :
  specResourceName web = Ok (Some "k8s/deployment/ns1/web")
  ∧ specResourceName ns1 = Ok (Some "k8s/namespace/ns1").
Proof.
  split.
  - destruct (identifier_format web "Deployment" eq_refl
                ltac:(discriminate) eq_refl eq_refl eq_refl
                ltac:(by intros _)) as ([|] & H & Hw & _).
    + exact H.
    + destruct Hw as [_ Hw]. discriminate Hw. split; [reflexivity | discriminate].
  - destruct (identifier_format ns1 "Namespace" eq_refl
                ltac:(discriminate) eq_refl eq_refl eq_refl
                ltac:(discriminate)) as ([|] & H & _ & Hn).
    + discriminate (Hn eq_refl).
    + exact H.
Defined.

(** C7, as stated, fails: on a [Deployment] named [web], an empty
    namespace and an absent one are two distinct values of
    [metadata.namespace] with one identifier. *)
Lemma empty_and_absent_namespace_collide :
  kindOf emptyNamespace = VStr "Deployment"
  ∧ kindOf noNamespace = VStr "Deployment"
  ∧ nameOf emptyNamespace = VStr "web"
  ∧ nameOf noNamespace = VStr "web"
  ∧ namespaceOf emptyNamespace = VStr ""
  ∧ namespaceOf noNamespace = VUndefined
  ∧ specResourceName emptyNamespace = Ok (Some "k8s/deployment/web")
  ∧ specResourceName noNamespace = Ok (Some "k8s/deployment/web").
Proof. by repeat split. Qed.

(** C7, amended: for every spec of a non-namespace kind (the lower-cased
    kind is not ["namespace"]) whose [kind] is a non-empty string of ASCII
    characters and whose [metadata.name] is truthy and convertible to a
    string, two distinct values of [metadata.namespace], each absent or a
    non-empty string, give two different identifiers. *)
Theorem namespace_changes_identifier (spec1 spec2 : value) (k : string) :
  kindOf spec1 = VStr k → kindOf spec2 = VStr k →
  k ≠ "" → isAscii k = true → lowerString k ≠ "namespace" →
  truthy (nameOf spec1) = true → printable (nameOf spec1) = true →
  nameOf spec2 = nameOf spec1 →
  namespaceValue (namespaceOf spec1) → namespaceValue (namespaceOf spec2) →
  namespaceOf spec1 ≠ namespaceOf spec2 →
  ∃ id1 id2, specResourceName spec1 = Ok (Some id1)
             ∧ specResourceName spec2 = Ok (Some id2) ∧ id1 ≠ id2.
Proof.
  intros Hk1 Hk2 Hne _ Hkind Hname1 Hp1 Hname2 Hns1 Hns2 Hdiff.
  assert (Hfs : ∀ v, namespaceValue v → falsyOrPrintable v).
  { by intros v [-> | (s & -> & _)]. }
  rewrite (specResourceName_printable spec1 k),
          (specResourceName_printable spec2 k) by (rewrite ?Hname2; auto).
  do 2 eexists. split; [reflexivity |]. split; [reflexivity |].
  unfold identifierWith, namespaceSegment.
  rewrite (string_eqb_false _ _ Hkind), Hname2. cbn [negb andb].
  intros Heq. do 2 apply (inj (String.app _)) in Heq.
  apply string_app_inv_tail in Heq. apply Hdiff.
  destruct Hns1 as [E1 | (s1 & E1 & Hs1)], Hns2 as [E2 | (s2 & E2 & Hs2)];
    rewrite E1, E2 in *; simpl in Heq;
    rewrite ?(string_eqb_false _ _ Hs1), ?(string_eqb_false _ _ Hs2) in Heq;
    simpl in Heq; rewrite ?string_app_cons in Heq;
    change ("" +:+ ?x) with x in Heq;
    repeat change (textOf (VStr ?x)) with x in Heq; congruence.
Qed.

Lemma namespace_changes_identifier_witness :
  ∃ id1 id2, specResourceName web = Ok (Some id1)
             ∧ specResourceName noNamespace = Ok (Some id2) ∧ id1 ≠ id2.
Proof.
  apply (namespace_changes_identifier web noNamespace "Deployment");
    try reflexivity; try discriminate.
  - right. exists "ns1". split; [reflexivity | discriminate].
  - left. reflexivity.
Defined.

(** C8: for every spec that has an identifier, dispatch calls one
    constructor, with the identifier, the spec and the options.  For
    [MutatingWebhookConfiguration], [ValidatingWebhookConfiguration] and
    [CustomResourceDefinition] the class is the v1beta1 one if and only if
    [apiVersion] is the v1beta1 string of that kind, and the v1 one for
    every other [apiVersion]; for every other kind the class is one and
    the same for all specs of the kind, whatever their [apiVersion]. *)
Theorem revision_by_apiVersion {sdk : Sdk}
    (spec : value) (o : loc) (id : string) :
  specResourceName spec = Ok (Some id) →
  (kindOf spec = VStr "MutatingWebhookConfiguration" →
   ∃ F, createSpecResource spec o = Some <$> construct F id spec o
        ∧ (F = admissionregistration_v1beta1_MutatingWebhookConfiguration
           ↔ apiVersionOf spec = VStr "admissionregistration.k8s.io/v1beta1")
        ∧ (F = admissionregistration_v1_MutatingWebhookConfiguration
           ↔ apiVersionOf spec ≠ VStr "admissionregistration.k8s.io/v1beta1"))
  ∧ (kindOf spec = VStr "ValidatingWebhookConfiguration" →
     ∃ F, createSpecResource spec o = Some <$> construct F id spec o
          ∧ (F = admissionregistration_v1beta1_ValidatingWebhookConfiguration
             ↔ apiVersionOf spec = VStr "admissionregistration.k8s.io/v1beta1")
          ∧ (F = admissionregistration_v1_ValidatingWebhookConfiguration
             ↔ apiVersionOf spec
               ≠ VStr "admissionregistration.k8s.io/v1beta1"))
  ∧ (kindOf spec = VStr "CustomResourceDefinition" →
     ∃ F, createSpecResource spec o = Some <$> construct F id spec o
          ∧ (F = apiextensions_v1beta1_CustomResourceDefinition
             ↔ apiVersionOf spec = VStr "apiextensions.k8s.io/v1beta1")
          ∧ (F = apiextensions_v1_CustomResourceDefinition
             ↔ apiVersionOf spec ≠ VStr "apiextensions.k8s.io/v1beta1"))
  ∧ (∀ k, kindOf spec = VStr k →
     k ∉ ["MutatingWebhookConfiguration"; "ValidatingWebhookConfiguration";
          "CustomResourceDefinition"] →
     ∃ F, createSpecResource spec o = Some <$> construct F id spec o
          ∧ ∀ spec' o' id',
              kindOf spec' = VStr k → specResourceName spec' = Ok (Some id') →
              createSpecResource spec' o' = Some <$> construct F id' spec' o').
Proof.
  intros Hid.
  split; [| split; [| split]];
    try (intros Hk; eexists;
         split; [apply (createSpecResource_dispatch _ _ _ _ Hk Hid) |];
         by apply familyOf_revision).
  intros k Hk Hnot. exists (familyOf k (apiVersionOf spec)).
  split; [apply (createSpecResource_dispatch _ _ _ _ Hk Hid) |].
  intros spec' o' id' Hk' Hid'.
  rewrite (createSpecResource_dispatch _ _ _ _ Hk' Hid').
  by rewrite (familyOf_single_revision k (apiVersionOf spec')
                (apiVersionOf spec)).
Qed.

Lemma revision_by_apiVersion_witness :
  createSpecResource (sdk := sampleSdk) crdBeta 1%positive
  = Ok (Some (new apiextensions_v1beta1_CustomResourceDefinition
                "k8s/customresourcedefinition/certs.example.com" crdBeta
                1%positive))
  ∧ createSpecResource (sdk := sampleSdk) crdV1 1%positive
    = Ok (Some (new apiextensions_v1_CustomResourceDefinition
                  "k8s/customresourcedefinition/certs.example.com" crdV1
                  1%positive))
  ∧ createSpecResource (sdk := sampleSdk)
      (webhook "MutatingWebhookConfiguration" VUndefined) 1%positive
    = Ok (Some (new admissionregistration_v1_MutatingWebhookConfiguration
                  "k8s/mutatingwebhookconfiguration/hook"
                  (webhook "MutatingWebhookConfiguration" VUndefined)
                  1%positive)).
Proof.
  split; [| split].
  - destruct (revision_by_apiVersion (sdk := sampleSdk) crdBeta 1%positive
                "k8s/customresourcedefinition/certs.example.com" eq_refl)
      as (_ & _ & H & _).
    destruct (H eq_refl) as (F & -> & [_ HF] & _).
    rewrite (HF eq_refl). reflexivity.
  - destruct (revision_by_apiVersion (sdk := sampleSdk) crdV1 1%positive
                "k8s/customresourcedefinition/certs.example.com" eq_refl)
      as (_ & _ & H & _).
    destruct (H eq_refl) as (F & -> & _ & [_ HF]).
    rewrite (HF ltac:(discriminate)). reflexivity.
  - destruct (revision_by_apiVersion (sdk := sampleSdk)
                (webhook "MutatingWebhookConfiguration" VUndefined) 1%positive
                "k8s/mutatingwebhookconfiguration/hook" eq_refl)
      as (H & _).
    destruct (H eq_refl) as (F & -> & _ & [_ HF]).
    rewrite (HF ltac:(discriminate)). reflexivity.
Defined.

Section case_variants.

(** No kind of the fixed mapping but ["Namespace"] is lowered to
    ["namespace"]. *)
Lemma lowered_namespace_unmapped k :
  k ≠ "Namespace" → lowerString k = "namespace" → k ∉ mappedKinds.
Proof.
  intros Hne Hlow. unfold mappedKinds, kindTable, revisionTable.
  cbn [map fst app]. rewrite !not_elem_of_cons.
  repeat split; try (intros ->; first [done | discriminate Hlow]).
  apply not_elem_of_nil.
Qed.

Lemma elem_of_tier2 args s :
  s ∈ args.(specs) → isDependent s = true → effective args s ∈ tier2 args.
Proof.
  intros Hs Hd. unfold tier2.
  apply list_elem_of_In, in_map, filter_In. by rewrite <- list_elem_of_In.
Qed.

End case_variants.

(** C9: a spec whose kind differs from ["Namespace"] in letter case only
    is not selected by the filter of the first tier and is selected by
    the filter of the dependent tier.  When its [metadata.name] is truthy
    and convertible to a string, its identifier has no namespace segment,
    whatever namespace the spec carries; and a call that returns on an
    input that holds the spec, the transform leaving it as it is, has its
    handle among the handles of the dependent tier, created by the generic
    custom-resource class under the options of that tier. *)
Theorem case_variant_of_Namespace {sdk : Sdk} (s : value) (k : string) :
  kindOf s = VStr k → k ≠ "Namespace" → lowerString k = "namespace" →
  firstKind s = false ∧ restKind s = true
  ∧ (truthy (nameOf s) = true → printable (nameOf s) = true →
     let n := textOf (nameOf s) in
     specResourceName s = Ok (Some ("k8s/namespace/" +:+ n))
     ∧ ∀ args σ out σ',
         s ∈ args.(specs) → effective args s = s →
         resourcesFromSpecs args σ = (Ok out, σ') →
         ∃ rest r,
           out = firstHandles args ++ rest
           ∧ r ∈ rest
           ∧ r = new apiextensions_CustomResource ("k8s/namespace/" +:+ n) s
                   (opts r)
           ∧ Forall (λ r', opts r' = opts r) rest
           ∧ σ' !! opts r
             = Some (dependentOptions (default ∅ (σ !! args.(options)))
                       (firstHandles args))).
Proof.
  intros Hk Hne Hlow.
  assert (Hcrd : k ≠ "CustomResourceDefinition") by (by intros ->).
  assert (Hke : k ≠ "") by (by intros ->).
  assert (Hf : firstKind s = false).
  { unfold firstKind. fold (kindOf s). rewrite Hk. simpl.
    by rewrite !string_eqb_false. }
  assert (Hr : restKind s = true).
  { unfold restKind, firstKind in *. by rewrite <- negb_orb, Hf. }
  split; [done |]. split; [done |]. intros Hname Hp n.
  assert (Hid : identifier k (namespaceOf s) (nameOf s)
                = Ok ("k8s/namespace/" +:+ n)).
  { unfold identifier, namespaceSegment, identifierWith.
    by rewrite Hlow, (printable_toString _ Hp). }
  split.
  { by rewrite (specResourceName_named _ _ Hk Hke Hname), Hid. }
  intros args σ out σ' Hs Ht Hrun.
  apply resourcesFromSpecs_Ok in Hrun as [-> ->].
  set (l := fresh (dom σ)).
  assert (Hh : handleOf l s
               = Some (new apiextensions_CustomResource
                         ("k8s/namespace/" +:+ n) s l)).
  { unfold handleOf, materializable. rewrite Hk, Hname, Hid.
    rewrite (string_eqb_false _ _ Hke). cbn [negb andb].
    by rewrite familyOf_unmapped by by apply lowered_namespace_unmapped. }
  do 2 eexists. split; [reflexivity |]. split; [| split; [| split]].
  - apply list_elem_of_omap. exists s. split; [| exact Hh].
    rewrite <- Ht. apply elem_of_tier2; [done |].
    by rewrite <- restKind_isDependent.
  - reflexivity.
  - apply handles_opts.
  - apply lookup_insert_eq.
Qed.

Lemma case_variant_of_Namespace_witness :
  ∃ out σ' r,
    resourcesFromSpecs (sdk := sampleSdk)
      {| options := 1%positive; specs := [lowerNamespace; ns1];
         transform := None |} callerStore = (Ok out, σ')
    ∧ map name (firstHandles
                  {| options := 1%positive; specs := [lowerNamespace; ns1];
                     transform := None |}) = ["k8s/namespace/ns1"]
    ∧ out !! 1%nat = Some r
    ∧ name r = "k8s/namespace/n"
    ∧ family r = apiextensions_CustomResource.
Proof.
  set (args := {| options := 1%positive; specs := [lowerNamespace; ns1];
                  transform := None |}).
  destruct (resourcesFromSpecs_returns (sdk := sampleSdk) args callerStore)
    as (out & σ' & Hrun).
  { repeat constructor. }
  destruct (case_variant_of_Namespace (sdk := sampleSdk) lowerNamespace
              "namespace" eq_refl ltac:(discriminate) eq_refl)
    as (_ & _ & H).
  destruct (H eq_refl eq_refl) as [_ H'].
  destruct (H' args callerStore out σ' ltac:(apply list_elem_of_here) eq_refl
              Hrun) as (rest & r & Hout & Hin & Hr & _ & _).
  exists out, σ', r. split; [exact Hrun |]. split; [reflexivity |].
  assert (Hrest : rest = [r]).
  { apply resourcesFromSpecs_Ok in Hrun as [Hout' _].
    rewrite Hout in Hout'. apply app_inv_head in Hout'. subst rest.
    apply list_elem_of_singleton in Hin. by rewrite Hin. }
  rewrite Hout, Hrest, Hr. repeat split.
Defined.

(** C10: the object behind the caller's [options] has the same settings
    after the call as before, whether the call returns or throws, and so
    has every other object of the store; the [dependsOn] of the dependent
    tier is set on a newly allocated copy, and the foundational tier is
    created under the caller's object itself. *)
Theorem caller_options_untouched {sdk : Sdk}
    (args : ResourcesFromSpecsArgs) (σ σ' : store) (o : optionsObj)
    (res : result (list Resource)) :
  σ !! args.(options) = Some o →
  resourcesFromSpecs args σ = (res, σ') →
  σ' !! args.(options) = Some o
  ∧ (∀ l, is_Some (σ !! l) → σ' !! l = σ !! l)
  ∧ (∀ out, res = Ok out →
     ∃ l : loc,
       σ !! l = None ∧ l ≠ args.(options)
       ∧ σ' = <[l := dependentOptions o (firstHandles args)]> σ
       ∧ out = firstHandles args ++ omap (handleOf l) (tier2 args)
       ∧ Forall (λ r, opts r = args.(options)) (firstHandles args)
       ∧ Forall (λ r, opts r = l) (omap (handleOf l) (tier2 args))).
Proof.
  intros Ho. rewrite resourcesFromSpecs_run, Ho. cbn [default].
  pose proof (fresh_loc_None σ) as Hfresh.
  set (l := fresh (dom σ)) in *.
  assert (Hl : ∀ l', is_Some (σ !! l') → l ≠ l').
  { intros l' [x Hx] ->. congruence. }
  destruct (firstRaise (tier1 args)).
  { intros [= <- <-]. by repeat split. }
  cbn zeta. intros Hrun.
  assert (Hσ' : σ' = <[l := dependentOptions o (firstHandles args)]> σ).
  { by destruct (firstRaise (tier2 args)); injection Hrun as <- <-. }
  subst σ'. split; [| split].
  - rewrite lookup_insert_ne; [done |]. apply Hl. by rewrite Ho.
  - intros l' Hl'. rewrite lookup_insert_ne; [done |]. by apply Hl.
  - intros out ->.
    destruct (firstRaise (tier2 args)); [done |].
    injection Hrun as <-. exists l.
    split; [done |]. split; [apply Hl; by rewrite Ho |].
    split; [done |]. split; [done |].
    split; apply handles_opts.
Qed.

Lemma caller_options_untouched_witness :
  ∃ σ', snd (resourcesFromSpecs (sdk := sampleSdk) twoTierArgs callerStore)
        = σ'
        ∧ σ' !! twoTierArgs.(options) = Some callerOptions.
Proof.
  destruct (resourcesFromSpecs (sdk := sampleSdk) twoTierArgs callerStore)
    as [res σ'] eqn:Hrun.
  exists σ'. split; [reflexivity |].
  exact (proj1 (caller_options_untouched (sdk := sampleSdk) twoTierArgs
                  callerStore σ' callerOptions res eq_refl Hrun)).
Defined.

(** * Further properties of [lib/k8s.ts] *)

Section more_runs.

Context {sdk : Sdk}.

Lemma illTyped_spec v :
  illTyped v = true
  ↔ truthy (kindOf v) = true ∧ truthy (nameOf v) = true
    ∧ ∀ k, kindOf v ≠ VStr k.
Proof.
  unfold illTyped.
  destruct (kindOf v) as [| |b|z|s|l|f]; simpl;
    try destruct b; try destruct (z =? 0)%Z;
    destruct (truthy (nameOf v)); simpl;
    (split; [intros H; try discriminate H; by repeat split |]);
    intros (H1 & H2 & H3); try discriminate H1; try discriminate H2;
    try reflexivity; by destruct (H3 s).
Qed.

Lemma illTyped_raises v : illTyped v = true → raises v = Some TypeError.
Proof.
  intros H. unfold raises. rewrite H.
  apply illTyped_spec in H as (_ & _ & Hk).
  destruct (kindOf v); try done. by destruct (Hk s).
Qed.

(** Each input spec is in one of the two tiers. *)
Lemma elem_of_tiers args s :
  s ∈ args.(specs) →
  effective args s ∈ tier1 args ∨ effective args s ∈ tier2 args.
Proof.
  intros Hs. unfold tier1, tier2, isDependent.
  destruct (isFoundational s) eqn:E; [left | right];
    apply list_elem_of_In, in_map, filter_In;
    by rewrite <- list_elem_of_In, ?E.
Qed.

Lemma tiers_count (P : value → bool) (t : value → value) l :
  (length (List.filter P (map t (List.filter isFoundational l)))
   + length (List.filter P (map t (List.filter isDependent l))))%nat
  = length (List.filter (λ s, P (t s)) l).
Proof.
  induction l as [|s l IH]; [done |]. cbn. unfold isDependent in *.
  destruct (isFoundational s); cbn; destruct (P (t s)); cbn; lia.
Qed.

Lemma filter_filter_same {A} (p : A → bool) l :
  List.filter p (List.filter p l) = List.filter p l.
Proof.
  induction l as [|a l IH]; [done |]. cbn.
  destruct (p a) eqn:E; cbn; by rewrite ?E, IH.
Qed.

Lemma filter_filter_none {A} (p q : A → bool) l :
  (∀ a, p a = true → q a = false) →
  List.filter q (List.filter p l) = [].
Proof.
  intros H. induction l as [|a l IH]; [done |]. cbn.
  destruct (p a) eqn:E; cbn; by rewrite ?(H a E), IH.
Qed.

Lemma omap_length_props o l :
  firstRaise l = None →
  length (omap (handleOf o) l) = length (List.filter materializable l).
Proof. intros H. by rewrite <- (handles_props o), length_map. Qed.

End more_runs.

(** X1: a call throws whenever the transform of some input spec has a
    truthy [kind] that is no string together with a truthy
    [metadata.name]: [kind.toLowerCase] is no function then.  What is
    thrown is this [TypeError], or what dispatch throws before on another
    spec. *)
Theorem throws_on_ill_typed_kind {sdk : Sdk}
    (args : ResourcesFromSpecsArgs) (σ : store) (s : value) :
  s ∈ args.(specs) →
  truthy (kindOf (effective args s)) = true →
  truthy (nameOf (effective args s)) = true →
  (∀ k, kindOf (effective args s) ≠ VStr k) →
  (∀ o, createSpecResource (effective args s) o = Throw TypeError)
  ∧ ∃ e σ', resourcesFromSpecs args σ = (Throw e, σ').
Proof.
  intros Hs Hk Hn Hno.
  assert (Hr : raises (effective args s) = Some TypeError).
  { apply illTyped_raises, illTyped_spec. auto. }
  split; [intros o; by rewrite createSpecResource_total, Hr |].
  rewrite resourcesFromSpecs_run.
  destruct (firstRaise (tier1 args)) as [e |] eqn:E1; [eauto |]. cbn zeta.
  destruct (firstRaise (tier2 args)) as [e |] eqn:E2; [eauto |].
  exfalso. rewrite firstRaise_None, Forall_forall in E1, E2.
  destruct (elem_of_tiers _ _ Hs) as [H | H];
    [apply E1 in H | apply E2 in H]; congruence.
Qed.

(** X2: a call that returns gives one handle for each input spec whose
    transform has a non-empty string [kind] and a truthy [metadata.name],
    and no other; so never more handles than specs. *)
Theorem handle_count {sdk : Sdk}
    (args : ResourcesFromSpecsArgs) (σ σ' : store) (out : list Resource) :
  resourcesFromSpecs args σ = (Ok out, σ') →
  length out
  = length (List.filter (λ s, materializable (effective args s)) args.(specs))
  ∧ (length out ≤ length args.(specs))%nat.
Proof.
  intros Hrun.
  destruct (resourcesFromSpecs_Ok_raises _ _ _ _ Hrun) as [H1 H2].
  apply resourcesFromSpecs_Ok in Hrun as [-> _].
  assert (Hlen : length (firstHandles args
                         ++ omap (handleOf (fresh (dom σ))) (tier2 args))
                 = length (List.filter (λ s, materializable (effective args s))
                             args.(specs))).
  { rewrite length_app. unfold firstHandles.
    rewrite !omap_length_props by done. apply tiers_count. }
  split; [exact Hlen |]. rewrite Hlen. apply List.filter_length_le.
Qed.

Lemma handle_count_witness :
  ∃ out σ',
    resourcesFromSpecs (sdk := sampleSdk) sampleArgs sampleStore = (Ok out, σ')
    ∧ length out = 2%nat.
Proof.
  destruct (resourcesFromSpecs_returns (sdk := sampleSdk) sampleArgs
              sampleStore) as (out & σ' & Hrun).
  { repeat constructor. }
  exists out, σ'. split; [exact Hrun |].
  exact (proj1 (handle_count (sdk := sampleSdk) sampleArgs sampleStore σ' out
                  Hrun)).
Defined.

(** X3: the call sorts by tier itself: on the input already sorted, the
    specs selected for the first tier followed by the others, it does
    what it does on the input as given. *)
Theorem presorted_input_same_run {sdk : Sdk}
    (o : loc) (t : option (value → value)) (l : list value) (σ : store) :
  resourcesFromSpecs
    {| options := o; specs := List.filter firstKind l ++ List.filter restKind l;
       transform := t |} σ
  = resourcesFromSpecs {| options := o; specs := l; transform := t |} σ.
Proof.
  rewrite !resourcesFromSpecs_run.
  unfold firstHandles, tier1, tier2, effective. cbn [options specs transform].
  rewrite filter_firstKind, filter_restKind, !List.filter_app.
  rewrite !filter_filter_same.
  rewrite (filter_filter_none isDependent isFoundational),
          (filter_filter_none isFoundational isDependent).
  - by rewrite app_nil_r.
  - unfold isDependent. by intros a ->.
  - unfold isDependent. by intros a ->%negb_true_iff.
Qed.

Section slashes.

Lemma occurs_app c (s t : string) :
  occurs c (s +:+ t) = occurs c s || occurs c t.
Proof.
  induction s as [|d s IH]; [done |].
  rewrite string_app_cons. cbn. by rewrite IH, orb_assoc.
Qed.

Lemma lowerAscii_slash c :
  Ascii.eqb "/" (lowerAscii c) = Ascii.eqb "/" c.
Proof.
  destruct c as [[] [] [] [] [] [] [] []]; reflexivity.
Qed.

Lemma occurs_slash_lowerString s :
  occurs "/" (lowerString s) = occurs "/" s.
Proof.
  induction s as [|c s IH]; [done |]. cbn [lowerString occurs].
  by rewrite lowerAscii_slash, IH.
Qed.

(** Two strings cut at their first slash are cut alike. *)
Lemma first_slash_inj (a b c d : string) :
  occurs "/" a = false → occurs "/" c = false →
  a +:+ "/" +:+ b = c +:+ "/" +:+ d → a = c ∧ b = d.
Proof.
  revert c. induction a as [|x a IH]; intros [|y c] Ha Hc H;
    rewrite ?string_app_cons in H; change ("" +:+ ?z) with z in H;
    rewrite ?string_app_cons in H; change ("" +:+ ?z) with z in H.
  - by injection H as ->.
  - injection H as <- _. cbn in Hc. done.
  - injection H as -> _. cbn in Ha. done.
  - injection H as -> H. cbn in Ha, Hc.
    apply orb_false_iff in Ha as [_ Ha]. apply orb_false_iff in Hc as [_ Hc].
    by destruct (IH c Ha Hc H) as [-> ->].
Qed.

End slashes.

(** X4: among specs whose kind and name are non-empty strings without
    a slash, the kind of ASCII characters, and whose namespace is absent or
    a non-empty string without a slash, the identifier tells the resources
    apart: two specs with one identifier have the same kind up to letter
    case and the same name, and, unless the kind is a namespace kind, the
    same namespace. *)
Theorem identifier_injective (spec1 spec2 : value) (k1 k2 n1 n2 : string) :
  kindOf spec1 = VStr k1 → kindOf spec2 = VStr k2 →
  nameOf spec1 = VStr n1 → nameOf spec2 = VStr n2 →
  k1 ≠ "" → k2 ≠ "" → n1 ≠ "" → n2 ≠ "" →
  isAscii k1 = true → isAscii k2 = true →
  namespaceValue (namespaceOf spec1) → namespaceValue (namespaceOf spec2) →
  occurs "/" k1 = false → occurs "/" k2 = false →
  occurs "/" n1 = false → occurs "/" n2 = false →
  slashFree (namespaceOf spec1) → slashFree (namespaceOf spec2) →
  specResourceName spec1 = specResourceName spec2 →
  lowerString k1 = lowerString k2 ∧ n1 = n2
  ∧ (lowerString k1 ≠ "namespace" → namespaceOf spec1 = namespaceOf spec2).
Proof.
  intros Hk1 Hk2 Hn1 Hn2 Hk1e Hk2e Hn1e Hn2e _ _ Hv1 Hv2 Sk1 Sk2 Sn1 Sn2
    Ss1 Ss2.
  assert (Hfs : ∀ v, namespaceValue v → falsyOrPrintable v).
  { by intros v [-> | (s & -> & _)]. }
  rewrite (specResourceName_printable _ _ Hk1 Hk1e),
          (specResourceName_printable _ _ Hk2 Hk2e);
    [| rewrite Hn2; by apply truthy_str | by rewrite Hn2 | by auto
     | rewrite Hn1; by apply truthy_str | by rewrite Hn1 | by auto].
  rewrite Hn1, Hn2. change (textOf (VStr n1)) with n1.
  change (textOf (VStr n2)) with n2.
  unfold identifierWith, namespaceSegment.
  rewrite <- (occurs_slash_lowerString k1) in Sk1.
  rewrite <- (occurs_slash_lowerString k2) in Sk2.
  set (l1 := lowerString k1) in *. set (l2 := lowerString k2) in *.
  destruct Hv1 as [E1 | (s1 & E1 & Hs1)], Hv2 as [E2 | (s2 & E2 & Hs2)];
    rewrite E1, E2 in *;
    change (textOf (VStr ?x)) with x; change (textOf VUndefined) with "undefined";
    cbn [truthy slashFree] in *;
    rewrite ?(string_eqb_false _ _ Hs1), ?(string_eqb_false _ _ Hs2);
    cbn [negb]; rewrite ?andb_false_r, ?andb_true_r;
    destruct (negb (l1 =? "namespace")) eqn:N1,
             (negb (l2 =? "namespace")) eqn:N2;
    intros [= Heq]; change ("" +:+ ?z) with z in Heq;
    rewrite ?string_app_assoc in Heq; change ("" +:+ ?z) with z in Heq.
  all: try (apply first_slash_inj in Heq as [Hl Heq]; [| done | done]).
  all: try (apply first_slash_inj in Heq as [Hs Heq]; [| done | done]).
  all: try (subst; split; [done |]; split; [done |]; intros Hns; try done;
            try (apply negb_false_iff, String.eqb_eq in N1; done);
            try (rewrite Hl in N1; congruence)).
  all: try (exfalso; rewrite <- Heq, occurs_app in Sn2; cbn in Sn2;
            by rewrite orb_true_r in Sn2).
  all: try (exfalso; rewrite Heq, occurs_app in Sn1; cbn in Sn1;
            by rewrite orb_true_r in Sn1).
Qed.

Lemma identifier_injective_witness :
  lowerString "Deployment" = lowerString "deployment" ∧ "web" = "web"
  ∧ (lowerString "Deployment" ≠ "namespace" →
     namespaceOf web = namespaceOf webLowerKind).
Proof.
  apply (identifier_injective web webLowerKind "Deployment" "deployment"
           "web" "web");
    try reflexivity; try discriminate;
    right; exists "ns1"; (split; [reflexivity | discriminate]).
Defined.

Section classes.

Lemma familyOf_foundational k api :
  familyOf k api ∈ foundationalFamilies ↔ k ∈ foundationalKinds.
Proof.
  unfold foundationalKinds. rewrite !elem_of_cons, elem_of_nil.
  unfold familyOf, kindTable, revisionTable. cbn [assoc].
  destruct (String.eqb_spec k "Namespace") as [-> | HN].
  { cbn. split; [auto |]. intros _. apply (bool_decide_unpack _). done. }
  destruct (String.eqb_spec k "CustomResourceDefinition") as [-> | HC].
  { cbn. split; [auto |]. intros _.
    destruct (api === _); apply (bool_decide_unpack _); done. }
  split; [| by intros [? | [? | []]]].
  intros H. exfalso. revert H.
  repeat (destruct (k =? _);
          [first [ apply (bool_decide_unpack _); done
                 | destruct (api === _); apply (bool_decide_unpack _); done ] |]).
  apply (bool_decide_unpack _). done.
Qed.

Lemma handles_family o (t : value → value) (p : value → bool) (b : bool) l :
  (∀ s, s ∈ l → kindOf (t s) = kindOf s) →
  (∀ s, p s = true → isFoundational s = b) →
  Forall (λ r, bool_decide (family r ∈ foundationalFamilies) = b)
    (omap (handleOf o) (map t (List.filter p l))).
Proof.
  intros Ht Hp. apply Forall_forall.
  intros r (v & Hv & Hr)%list_elem_of_omap.
  apply list_elem_of_In, in_map_iff in Hv as (s & <- & Hs).
  apply filter_In in Hs as [Hs Hps]. apply list_elem_of_In in Hs.
  specialize (Ht s Hs). specialize (Hp s Hps).
  unfold handleOf in Hr. unfold isFoundational in Hp. rewrite Ht in Hr.
  destruct (kindOf s) as [| | | |k| |]; try done.
  destruct (materializable (t s)); [| done].
  destruct (identifier _ _ _); [| done]. injection Hr as <-. cbn [family].
  rewrite <- Hp. apply bool_decide_ext, familyOf_foundational.
Qed.

End classes.

(** X5: when the transform leaves the [kind] of the input specs as it
    is, a call that returns lists the handles of the namespace and
    custom-resource-definition classes before all handles of other
    classes. *)
Theorem foundational_classes_first {sdk : Sdk}
    (args : ResourcesFromSpecsArgs) (σ σ' : store) (out : list Resource) :
  (∀ s, s ∈ args.(specs) → kindOf (effective args s) = kindOf s) →
  resourcesFromSpecs args σ = (Ok out, σ') →
  ∃ first rest,
    out = first ++ rest
    ∧ Forall (λ r, family r ∈ foundationalFamilies) first
    ∧ Forall (λ r, family r ∉ foundationalFamilies) rest.
Proof.
  intros Ht [-> _]%resourcesFromSpecs_Ok. do 2 eexists.
  split; [reflexivity |]. split.
  - eapply Forall_impl;
      [apply (handles_family _ _ isFoundational true); [done | done] |].
    cbn. by intros r ?%bool_decide_eq_true.
  - eapply Forall_impl;
      [apply (handles_family _ _ isDependent false); [done |] |].
    + unfold isDependent. by intros s ?%negb_true_iff.
    + cbn. by intros r ?%bool_decide_eq_false.
Qed.

Lemma foundational_classes_first_witness :
  ∃ first rest,
    fst (resourcesFromSpecs (sdk := sampleSdk) sampleArgs sampleStore)
    = Ok (first ++ rest)
    ∧ Forall (λ r, family r ∈ foundationalFamilies) first
    ∧ Forall (λ r, family r ∉ foundationalFamilies) rest.
Proof.
  destruct (resourcesFromSpecs_returns (sdk := sampleSdk) sampleArgs
              sampleStore) as (out & σ' & Hrun).
  { repeat constructor. }
  destruct (foundational_classes_first (sdk := sampleSdk) sampleArgs
              sampleStore σ' out (λ s _, eq_refl) Hrun)
    as (first & rest & E & H1 & H2).
  exists first, rest. split; [| split; [exact H1 | exact H2]].
  rewrite Hrun. cbn [fst]. f_equal. exact E.
Defined.

(** X6: input elements that are no objects, such as the [null] of an
    empty YAML document, and elements the transform turns into such, are
    skipped in silence: a call on them alone returns no handle, and gives
    the dependent tier a plain copy of the caller's options. *)
Theorem non_object_specs_skipped {sdk : Sdk}
    (args : ResourcesFromSpecsArgs) (σ : store) :
  Forall (λ s, ∀ f, effective args s ≠ VObj f) args.(specs) →
  resourcesFromSpecs args σ
  = (Ok [], <[fresh (dom σ) := default ∅ (σ !! args.(options))]> σ).
Proof.
  intros Hall.
  assert (Hnone : ∀ (p : value → bool) o,
    firstRaise (map (effective args) (List.filter p args.(specs))) = None
    ∧ omap (handleOf o) (map (effective args) (List.filter p args.(specs)))
      = []).
  { intros p o. induction Hall as [|s l Hs _ IH]; [done |]. cbn.
    destruct (p s); [| done]. cbn. destruct IH as [-> ->].
    assert (Hk : kindOf (effective args s) = VUndefined).
    { unfold kindOf. destruct (effective args s); try done. by destruct (Hs fields). }
    unfold raises, illTyped, handleOf. by rewrite Hk. }
  rewrite resourcesFromSpecs_run. unfold firstHandles, tier1, tier2.
  destruct (Hnone isFoundational args.(options)) as [-> ->].
  destruct (Hnone isDependent (fresh (dom σ))) as [-> ->].
  reflexivity.
Qed.

Lemma non_object_specs_skipped_witness :
  fst (resourcesFromSpecs (sdk := sampleSdk) emptyDocuments callerStore)
  = Ok [].
Proof.
  rewrite (non_object_specs_skipped (sdk := sampleSdk) emptyDocuments
             callerStore); [reflexivity |].
  repeat constructor; discriminate.
Defined.

(** X7: one call on two inputs put end to end gives the first-tier
    handles of both before the dependent handles of both, each group in
    the order of the separate calls. *)
Theorem concatenated_inputs {sdk : Sdk}
    (o : loc) (t : option (value → value)) (l1 l2 : list value)
    (σ σ1 σ2 : store) (out1 out2 : list Resource) :
  let args l := {| options := o; specs := l; transform := t |} in
  resourcesFromSpecs (args l1) σ = (Ok out1, σ1) →
  resourcesFromSpecs (args l2) σ = (Ok out2, σ2) →
  ∃ rest1 rest2 σ12,
    out1 = firstHandles (args l1) ++ rest1
    ∧ out2 = firstHandles (args l2) ++ rest2
    ∧ resourcesFromSpecs (args (l1 ++ l2)) σ
      = (Ok (firstHandles (args l1) ++ firstHandles (args l2)
             ++ rest1 ++ rest2), σ12).
Proof.
  intros args H1 H2. revert H1 H2. rewrite !resourcesFromSpecs_run.
  unfold firstHandles, tier1, tier2, effective, args.
  cbn [options specs transform].
  rewrite !List.filter_app, !map_app, !firstRaise_app, !omap_app.
  destruct (firstRaise (map _ (List.filter isFoundational l1))); [done |].
  destruct (firstRaise (map _ (List.filter isFoundational l2))); [done |].
  cbn zeta.
  destruct (firstRaise (map _ (List.filter isDependent l1))); [done |].
  destruct (firstRaise (map _ (List.filter isDependent l2))); [done |].
  intros [= <- _] [= <- _]. do 3 eexists.
  split; [reflexivity |]. split; [reflexivity |].
  by rewrite <- !app_assoc.
Qed.

Lemma concatenated_inputs_witness :
  ∃ out σ',
    resourcesFromSpecs (sdk := sampleSdk)
      {| options := 1%positive; specs := [web] ++ [ns1]; transform := None |}
      callerStore = (Ok out, σ').
Proof.
  destruct (resourcesFromSpecs_returns (sdk := sampleSdk)
              {| options := 1%positive; specs := [web]; transform := None |}
              callerStore) as (out1 & σ1 & H1).
  { repeat constructor. }
  destruct (resourcesFromSpecs_returns (sdk := sampleSdk)
              {| options := 1%positive; specs := [ns1]; transform := None |}
              callerStore) as (out2 & σ2 & H2).
  { repeat constructor. }
  destruct (concatenated_inputs (sdk := sampleSdk) 1%positive None [web]
              [ns1] callerStore
              σ1 σ2 out1 out2 H1 H2) as (rest1 & rest2 & σ12 & _ & _ & H).
  do 2 eexists. exact H.
Defined.

Section conversions.

(** The conversion to a string throws nothing but a [TypeError]. *)
Lemma toString_throws v e : toString v = Throw e → e = TypeError.
Proof.
  revert v e. fix IH 1.
  intros [| | b | z | s | elems | fields] e; cbn [toString]; try done.
  - assert (Hl : ∀ e',
      mapM (λ x, match x with
                 | VUndefined | VNull => Ok ""
                 | _ => toString x
                 end) elems = Throw e' → e' = TypeError).
    { induction elems as [|x elems IHl]; intros e'; cbn [mapM]; [done |].
      destruct (match x with
                | VUndefined | VNull => Ok ""
                | _ => toString x
                end) as [t | e0] eqn:E; cbn [mbind result_bind].
      - destruct (mapM _ elems) as [ts | e1]; [done |].
        intros [= <-]. by apply IHl.
      - intros [= <-]. apply (IH x). by destruct x. }
    destruct (mapM _ elems) as [ts | e1]; [done |].
    cbn [mbind result_bind]. intros [= <-]. by apply Hl.
  - destruct (fields !! "toString"); [by intros [= <-] | done].
Qed.

Lemma identifier_unprintable k ns fields :
  is_Some (fields !! "toString") →
  identifier k ns (VObj fields) = Throw TypeError.
Proof.
  intros [v Hv]. unfold identifier. cbn [toString]. rewrite Hv.
  destruct (namespaceSegment k ns); [| done].
  destruct (toString ns) as [t | e] eqn:E; [done |].
  by rewrite (toString_throws _ _ E).
Qed.

End conversions.

(** X19: a spec with a string kind whose [metadata.name] is an object
    with an own [toString] property cannot be named, [parts.join] throwing
    a [TypeError]; dispatch throws it, and so a call throws on an input
    that holds a spec whose transform is such. *)
Theorem unprintable_name_throws {sdk : Sdk}
    (args : ResourcesFromSpecsArgs) (σ : store) (s : value) (k : string)
    (fields : gmap string value) :
  s ∈ args.(specs) →
  kindOf (effective args s) = VStr k → k ≠ "" →
  nameOf (effective args s) = VObj fields → is_Some (fields !! "toString") →
  specResourceName (effective args s) = Throw TypeError
  ∧ (∀ o, createSpecResource (effective args s) o = Throw TypeError)
  ∧ ∃ e σ', resourcesFromSpecs args σ = (Throw e, σ').
Proof.
  intros Hs Hk Hne Hn Hf.
  assert (Hname : truthy (nameOf (effective args s)) = true) by by rewrite Hn.
  assert (Hid : specResourceName (effective args s) = Throw TypeError).
  { rewrite (specResourceName_named _ _ Hk Hne Hname), Hn.
    by rewrite identifier_unprintable. }
  assert (Hr : raises (effective args s) = Some TypeError).
  { unfold raises, materializable. rewrite Hk, Hname, Hn.
    rewrite (string_eqb_false _ _ Hne). cbn [negb andb].
    by rewrite identifier_unprintable. }
  split; [done |]. split.
  { intros o. unfold createSpecResource. by rewrite Hid. }
  rewrite resourcesFromSpecs_run.
  destruct (firstRaise (tier1 args)) as [e |] eqn:E1; [eauto |]. cbn zeta.
  destruct (firstRaise (tier2 args)) as [e |] eqn:E2; [eauto |].
  exfalso. rewrite firstRaise_None, Forall_forall in E1, E2.
  destruct (elem_of_tiers _ _ Hs) as [H | H];
    [apply E1 in H | apply E2 in H]; congruence.
Qed.

Lemma unprintable_name_throws_witness :
  specResourceName unprintableName = Throw TypeError
  ∧ ∃ e σ',
      resourcesFromSpecs (sdk := sampleSdk)
        {| options := 1%positive; specs := [ns1; unprintableName];
           transform := None |} callerStore = (Throw e, σ').
Proof.
  destruct (unprintable_name_throws (sdk := sampleSdk)
              {| options := 1%positive; specs := [ns1; unprintableName];
                 transform := None |} callerStore unprintableName "ConfigMap"
              (list_to_map [("toString", VNum 1)])
              ltac:(apply list_elem_of_further, list_elem_of_here)
              eq_refl ltac:(discriminate) eq_refl ltac:(by eexists))
    as (H1 & _ & H2).
  split; [exact H1 | exact H2].
Defined.

(** * Properties of [lib/iam.ts] *)

Section role_names.

Lemma replaceAllChar_occurs c d s :
  c ≠ d → occurs c (Iam.replaceAllChar c d s) = false.
Proof.
  intros Hcd. induction s as [|e s IH]; [done |]. cbn.
  rewrite IH, orb_false_r.
  destruct (Ascii.eqb_spec e c) as [-> | He].
  - by apply Ascii.eqb_neq.
  - apply Ascii.eqb_neq. congruence.
Qed.

Lemma replaceAllChar_length c d s :
  String.length (Iam.replaceAllChar c d s) = String.length s.
Proof. induction s as [|e s IH]; [done |]. cbn. by rewrite IH. Qed.

Lemma lowerString_length s : String.length (lowerString s) = String.length s.
Proof. induction s as [|e s IH]; [done |]. cbn. by rewrite IH. Qed.

Lemma lowerAscii_not_upper c : isUpper (lowerAscii c) = false.
Proof. destruct c as [[] [] [] [] [] [] [] []]; reflexivity. Qed.

Lemma lowerAscii_dot c : Ascii.eqb "." (lowerAscii c) = Ascii.eqb "." c.
Proof. destruct c as [[] [] [] [] [] [] [] []]; reflexivity. Qed.

Lemma lowerAscii_dash c : Ascii.eqb "-" (lowerAscii c) = Ascii.eqb "-" c.
Proof. destruct c as [[] [] [] [] [] [] [] []]; reflexivity. Qed.

Lemma lowerAscii_fixed c : isUpper c = false → lowerAscii c = c.
Proof. unfold lowerAscii, isUpper. by intros ->. Qed.

Lemma lowerString_no_upper s : anyUpper (lowerString s) = false.
Proof.
  induction s as [|c s IH]; [done |]. cbn.
  by rewrite lowerAscii_not_upper, IH.
Qed.

Lemma lowerString_dot s : occurs "." (lowerString s) = occurs "." s.
Proof.
  induction s as [|c s IH]; [done |]. cbn [lowerString occurs].
  by rewrite lowerAscii_dot, IH.
Qed.

Lemma lowerString_dash s : occurs "-" (lowerString s) = occurs "-" s.
Proof.
  induction s as [|c s IH]; [done |]. cbn [lowerString occurs].
  by rewrite lowerAscii_dash, IH.
Qed.

Lemma lowerString_fixed s : anyUpper s = false → lowerString s = s.
Proof.
  induction s as [|c s IH]; [done |]. cbn.
  intros [Hc Hs]%orb_false_iff. by rewrite (lowerAscii_fixed _ Hc), IH.
Qed.

Lemma replaceAllChar_fixed c d s :
  occurs c s = false → Iam.replaceAllChar c d s = s.
Proof.
  induction s as [|e s IH]; [done |]. cbn.
  intros [Hc Hs]%orb_false_iff. rewrite (IH Hs).
  apply Ascii.eqb_neq in Hc.
  destruct (Ascii.eqb_spec e c); [congruence | done].
Qed.

Lemma dropPrefix_app p s : Iam.dropPrefix p (p +:+ s) = Some s.
Proof.
  induction p as [|a p IH]; [done |].
  rewrite string_app_cons. cbn. by rewrite Ascii.eqb_refl.
Qed.

Lemma dropPrefix_Some p s s' : Iam.dropPrefix p s = Some s' → s = p +:+ s'.
Proof.
  revert s. induction p as [|a p IH]; intros s; cbn.
  { by intros [= ->]. }
  destruct s as [|b s]; [done |].
  destruct (Ascii.eqb_spec a b) as [-> | _]; [| done].
  intros ->%IH. by rewrite string_app_cons.
Qed.

(** What is left of a string keeps its being free of a character. *)
Lemma replaceLeading_occurs c p s :
  occurs c s = false → occurs c (Iam.replaceLeading p s) = false.
Proof.
  unfold Iam.replaceLeading. destruct (Iam.dropPrefix p s) as [s'|] eqn:E;
    [| done].
  apply dropPrefix_Some in E as ->. rewrite occurs_app.
  by intros [_ ?]%orb_false_iff.
Qed.

Lemma anyUpper_app (s t : string) :
  anyUpper (s +:+ t) = anyUpper s || anyUpper t.
Proof.
  induction s as [|d s IH]; [done |].
  rewrite string_app_cons. cbn. by rewrite IH, orb_assoc.
Qed.

Lemma replaceLeading_anyUpper p s :
  anyUpper s = false → anyUpper (Iam.replaceLeading p s) = false.
Proof.
  unfold Iam.replaceLeading. destruct (Iam.dropPrefix p s) as [s'|] eqn:E;
    [| done].
  apply dropPrefix_Some in E as ->. rewrite anyUpper_app.
  by intros [_ ?]%orb_false_iff.
Qed.

Lemma replaceAllChar_inj c d s1 s2 :
  occurs d s1 = false → occurs d s2 = false →
  Iam.replaceAllChar c d s1 = Iam.replaceAllChar c d s2 → s1 = s2.
Proof.
  revert s2. induction s1 as [|e1 s1 IH]; intros [|e2 s2]; cbn; try done.
  intros [H1 Hs1]%orb_false_iff [H2 Hs2]%orb_false_iff Heq.
  injection Heq as He Hs.
  rewrite (IH s2 Hs1 Hs2 Hs). f_equal.
  apply Ascii.eqb_neq in H1, H2.
  destruct (Ascii.eqb_spec e1 c), (Ascii.eqb_spec e2 c); congruence.
Qed.

Lemma replaceAllChar_lowerString s :
  lowerString (Iam.replaceAllChar "." "-" s)
  = Iam.replaceAllChar "." "-" (lowerString s).
Proof.
  induction s as [|c s IH]; [done |]. cbn. rewrite IH. f_equal.
  destruct c as [[] [] [] [] [] [] [] []]; reflexivity.
Qed.

End role_names.

(** X8: a simple role name has no dot and no upper-case letter, whatever
    the role. *)
Theorem simpleRoleName_safe (role : string) :
  occurs "." (Iam.simpleRoleName role) = false
  ∧ anyUpper (Iam.simpleRoleName role) = false.
Proof.
  unfold Iam.simpleRoleName. split; [| apply lowerString_no_upper].
  rewrite lowerString_dot. by apply replaceAllChar_occurs.
Qed.

(** X9: on a role of ASCII characters, the prefix ["roles/"] is
    removed once, at the start, in this letter case only; the rest keeps
    its length.  So the simple role name is six characters shorter than a
    role that starts with ["roles/"], and as long as any other role. *)
Theorem simpleRoleName_length (role : string) :
  isAscii role = true →
  (∀ rest, role = "roles/" +:+ rest →
     Iam.simpleRoleName role
     = lowerString (Iam.replaceAllChar "." "-" rest)
     ∧ String.length (Iam.simpleRoleName role) = String.length rest)
  ∧ ((∀ rest, role ≠ "roles/" +:+ rest) →
     Iam.simpleRoleName role
     = lowerString (Iam.replaceAllChar "." "-" role)
     ∧ String.length (Iam.simpleRoleName role) = String.length role).
Proof.
  intros _. unfold Iam.simpleRoleName, Iam.replaceLeading. split.
  - intros rest ->. rewrite dropPrefix_app. cbn [default].
    by rewrite lowerString_length, replaceAllChar_length.
  - intros Hno. destruct (Iam.dropPrefix "roles/" role) as [s'|] eqn:E.
    { apply dropPrefix_Some in E. by destruct (Hno s'). }
    cbn [default]. by rewrite lowerString_length, replaceAllChar_length.
Qed.

Lemma simpleRoleName_length_witness :
  Iam.simpleRoleName "roles/logging.logWriter" = "logging-logwriter"
  ∧ Iam.simpleRoleName "Roles/dns.admin" = "roles/dns-admin".
Proof.
  split.
  - exact (proj1 (proj1 (simpleRoleName_length "roles/logging.logWriter"
                           eq_refl)
                    "logging.logWriter" eq_refl)).
  - apply (proj2 (simpleRoleName_length "Roles/dns.admin" eq_refl)).
    intros rest H. discriminate H.
Defined.

(** X10: applied to a simple role name, [simpleRoleName] changes nothing
    but a leading ["roles/"]: it is idempotent on every role whose simple
    name does not start with ["roles/"]. *)
Theorem simpleRoleName_twice (role : string) :
  Iam.simpleRoleName (Iam.simpleRoleName role)
  = Iam.replaceLeading "roles/" (Iam.simpleRoleName role)
  ∧ ((∀ rest, Iam.simpleRoleName role ≠ "roles/" +:+ rest) →
     Iam.simpleRoleName (Iam.simpleRoleName role) = Iam.simpleRoleName role).
Proof.
  destruct (simpleRoleName_safe role) as [Hdot Hup].
  set (r := Iam.simpleRoleName role) in *.
  assert (H : Iam.simpleRoleName r = Iam.replaceLeading "roles/" r).
  { unfold Iam.simpleRoleName at 1.
    rewrite replaceAllChar_fixed by by apply replaceLeading_occurs.
    by rewrite lowerString_fixed by by apply replaceLeading_anyUpper. }
  split; [exact H |]. intros Hno. rewrite H. unfold Iam.replaceLeading.
  destruct (Iam.dropPrefix "roles/" r) as [s'|] eqn:E; [| done].
  apply dropPrefix_Some in E. by destruct (Hno s').
Qed.

Lemma simpleRoleName_twice_witness :
  Iam.simpleRoleName (Iam.simpleRoleName "roles/dns.admin")
  = Iam.simpleRoleName "roles/dns.admin".
Proof.
  apply (proj2 (simpleRoleName_twice "roles/dns.admin")).
  intros rest H. discriminate H.
Defined.

(** X11: two roles ["roles/..."] of ASCII characters without a hyphen
    get one simple name only if they are the same up to letter case. *)
Theorem simpleRoleName_injective (rest1 rest2 : string) :
  isAscii rest1 = true → isAscii rest2 = true →
  occurs "-" rest1 = false → occurs "-" rest2 = false →
  Iam.simpleRoleName ("roles/" +:+ rest1)
  = Iam.simpleRoleName ("roles/" +:+ rest2) →
  lowerString rest1 = lowerString rest2.
Proof.
  intros _ _ H1 H2. unfold Iam.simpleRoleName, Iam.replaceLeading.
  rewrite !dropPrefix_app. cbn [default].
  rewrite !replaceAllChar_lowerString.
  apply replaceAllChar_inj; by rewrite lowerString_dash.
Qed.

Lemma simpleRoleName_injective_witness :
  lowerString "dns.Admin" = lowerString "DNS.admin".
Proof.
  apply simpleRoleName_injective; reflexivity.
Defined.

Section workload_identity.

Lemma substring_prefix_length n s :
  (String.length (String.substring 0 n s) ≤ n)%nat.
Proof.
  revert s. induction n as [|n IH]; intros [|c s]; cbn; try lia.
  specialize (IH s). lia.
Qed.

Lemma substring_prefix_short n s :
  (String.length s ≤ n)%nat → String.substring 0 n s = s.
Proof.
  revert s. induction n as [|n IH]; intros [|c s]; cbn; try done; try lia.
  intros H. f_equal. apply IH. lia.
Qed.

(** The declared resources after the loop over the roles. *)
Lemma forOf_declare {A} (f : A → Iam.gcpResource) (xs : list A) reg :
  Iam.forOf xs (λ x, Iam.declare (f x)) reg = ((), reg ++ map f xs).
Proof.
  revert reg. induction xs as [|x xs IH]; intros reg; cbn.
  { by rewrite app_nil_r. }
  unfold mbind, Iam.Engine_bind, Iam.declare. cbn.
  rewrite IH. by rewrite <- app_assoc.
Qed.

(** One call, in closed form. *)
Lemma workloadIdentity_run wi reg :
  Iam.workloadIdentity wi reg
  = (wiAccount wi,
     reg ++ wiAccount wi :: map (wiMember wi (wiAccount wi)) wi.(Iam.projectRoles)
         ++ [wiPolicy wi (wiAccount wi)]).
Proof.
  unfold Iam.workloadIdentity, mbind, Iam.Engine_bind, Iam.declare, mret,
    Iam.Engine_ret.
  cbv beta iota zeta. fold (wiAccount wi).
  rewrite (forOf_declare (wiMember wi (wiAccount wi))).
  fold (wiPolicy wi (wiAccount wi)).
  by rewrite <- !app_assoc.
Qed.

Lemma wiAccount_name wi : Iam.resourceName (wiAccount wi) = wiAccountName wi.
Proof. reflexivity. Qed.

End workload_identity.

(** X12: [workloadIdentity] returns the service account, named
    ["sa-wi-"] followed by the first 24 characters of the workload; the
    name is the account id, is never longer than the 30 characters of an
    account id, and is ["sa-wi-<workload>"] in full for a workload of at
    most 24 characters. *)
Theorem account_id_bounded
    (wi : Iam.WorkloadIdentityConfiguration) (reg : list Iam.gcpResource) :
  (∃ description displayName project,
     fst (Iam.workloadIdentity wi reg)
     = Iam.serviceAccount_Account (wiAccountName wi) (wiAccountName wi)
         description displayName project wi.(Iam.options))
  ∧ (String.length (wiAccountName wi) ≤ 30)%nat
  ∧ ((String.length wi.(Iam.workload) ≤ 24)%nat →
     wiAccountName wi = "sa-wi-" +:+ wi.(Iam.workload)).
Proof.
  split; [| split].
  - rewrite workloadIdentity_run. cbn [fst]. unfold wiAccount. eauto.
  - unfold wiAccountName.
    pose proof (substring_prefix_length 24 wi.(Iam.workload)) as H.
    rewrite string_app_length. cbn [String.length]. lia.
  - intros H. unfold wiAccountName. by rewrite substring_prefix_short.
Qed.

Lemma account_id_bounded_witness :
  wiAccountName sampleIdentity = "sa-wi-external-dns".
Proof.
  apply (proj2 (proj2 (account_id_bounded sampleIdentity []))).
  cbn. lia.
Defined.

(** X13: two workloads get one account name exactly when they agree on
    their first 24 characters: longer workload names that differ later
    collide. *)
Theorem account_names_collide
    (wi1 wi2 : Iam.WorkloadIdentityConfiguration)
    (reg1 reg2 : list Iam.gcpResource) :
  Iam.resourceName (fst (Iam.workloadIdentity wi1 reg1))
  = Iam.resourceName (fst (Iam.workloadIdentity wi2 reg2))
  ↔ String.substring 0 24 wi1.(Iam.workload)
    = String.substring 0 24 wi2.(Iam.workload).
Proof.
  rewrite !workloadIdentity_run. cbn [fst]. rewrite !wiAccount_name.
  unfold wiAccountName. split.
  - by intros ?%(inj (String.app "sa-wi-")).
  - by intros ->.
Qed.

Section member_names.

Lemma declaredMembers_app reg1 reg2 :
  declaredMembers (reg1 ++ reg2) = declaredMembers reg1 ++ declaredMembers reg2.
Proof. apply omap_app. Qed.

Lemma declaredMembers_members wi account roles :
  declaredMembers (map (wiMember wi account) roles)
  = map (λ x, "sa-wi-" +:+ wi.(Iam.workload) +:+ "-" +:+ x +:+ "-member")
      (map Iam.simpleRoleName roles).
Proof. induction roles as [|r roles IH]; [done |]. cbn. by rewrite <- IH. Qed.

Lemma member_name_inj (w : string) :
  Inj (=) (=) (λ x, "sa-wi-" +:+ w +:+ "-" +:+ x +:+ "-member").
Proof.
  intros x y H. apply (inj (String.app "sa-wi-")) in H.
  apply (inj (String.app w)) in H. apply (inj (String.app "-")) in H.
  by apply string_app_inv_tail in H.
Qed.

End member_names.

(** X15: the [IAMMember] resources that one call declares have
    pairwise different names exactly when the roles have pairwise
    different simple role names. *)
Theorem member_names_distinct (wi : Iam.WorkloadIdentityConfiguration) :
  NoDup (declaredMembers (snd (Iam.workloadIdentity wi [])))
  ↔ NoDup (map Iam.simpleRoleName wi.(Iam.projectRoles)).
Proof.
  rewrite workloadIdentity_run. cbn [snd app].
  change (wiAccount wi :: ?l) with ([wiAccount wi] ++ l).
  rewrite !declaredMembers_app, declaredMembers_members.
  cbn [declaredMembers omap list_omap wiAccount wiPolicy app].
  rewrite app_nil_r.
  exact (@NoDup_fmap _ _ _ (member_name_inj _) _).
Qed.

(** * Properties of [config.ts] *)

Section configuration.

Lemma gkeConfig_getProp configured k :
  getProp (Config.gkeConfig configured) k = Ok (optChain configured k).
Proof.
  unfold Config.gkeConfig, Config.orElse.
  destruct configured as [| |[]|z|s|l|f]; try done.
  - cbn. by destruct (z =? 0)%Z.
  - cbn. by destruct (s =? "").
Qed.

Lemma replaceTrailing_spec p s :
  p ≠ "" →
  (∃ s', s = s' +:+ p ∧ Config.replaceTrailing p s = s')
  ∨ ((∀ s', s ≠ s' +:+ p) ∧ Config.replaceTrailing p s = s).
Proof.
  intros Hp. destruct p as [|a p]; [done |]. clear Hp.
  induction s as [|c s IH].
  - right. split; [| done].
    intros [|d s'] H; rewrite ?string_app_cons in H; discriminate H.
  - cbn [Config.replaceTrailing].
    destruct (String.eqb_spec (String c s) (String a p)) as [E | Hne].
    { left. exists "". by rewrite E. }
    destruct IH as [(s' & -> & ->) | [Hno ->]].
    + left. exists (String c s'). by rewrite string_app_cons.
    + right. split; [| done]. intros [|d s'] H.
      * by destruct Hne.
      * rewrite string_app_cons in H. injection H as _ H. by destruct (Hno s').
Qed.

End configuration.

(** X16: the node counts cannot be configured to zero: reading them
    never throws, gives the configured count when that is a number other
    than zero, and gives the default (3 for the maximum, 1 for the
    minimum) when the count is zero or missing; the result is never
    zero. *)
Theorem node_counts_never_zero (configured : value) :
  let configuredMax := optChain configured "maxNodeCount" in
  let configuredMin := optChain configured "minNodeCount" in
  ∃ vmax vmin,
    Config.maxNodeCount configured = Ok vmax
    ∧ Config.minNodeCount configured = Ok vmin
    ∧ vmax ≠ VNum 0 ∧ vmin ≠ VNum 0
    ∧ (∀ n, n ≠ 0%Z → configuredMax = VNum n → vmax = VNum n)
    ∧ (∀ n, n ≠ 0%Z → configuredMin = VNum n → vmin = VNum n)
    ∧ (configuredMax = VNum 0 ∨ configuredMax = VUndefined → vmax = VNum 3)
    ∧ (configuredMin = VNum 0 ∨ configuredMin = VUndefined → vmin = VNum 1).
Proof.
  intros cmax cmin. unfold Config.maxNodeCount, Config.minNodeCount.
  rewrite !gkeConfig_getProp. cbn [mbind result_bind].
  fold cmax cmin. do 2 eexists.
  split; [reflexivity |]. split; [reflexivity |].
  unfold Config.orElse. repeat split.
  - destruct cmax as [| | |z| | |]; cbn; try done.
    + by destruct b.
    + destruct (Z.eqb_spec z 0) as [-> | ?]; cbn; congruence.
    + by destruct (s =? "").
  - destruct cmin as [| | |z| | |]; cbn; try done.
    + by destruct b.
    + destruct (Z.eqb_spec z 0) as [-> | ?]; cbn; congruence.
    + by destruct (s =? "").
  - intros n Hn ->. cbn. by rewrite (proj2 (Z.eqb_neq n 0) Hn).
  - intros n Hn ->. cbn. by rewrite (proj2 (Z.eqb_neq n 0) Hn).
  - by intros [-> | ->].
  - by intros [-> | ->].
Qed.

(** X17: the purpose is the configured one when that is a non-empty
    string; otherwise it is the project without one trailing
    ["-cluster"], so that the project is the purpose followed by
    ["-cluster"], or is the purpose itself when it does not end so. *)
Theorem purpose_default (configured : value) (gcpProject : string) :
  (truthy configured = true → Config.purpose configured gcpProject = configured)
  ∧ (truthy configured = false →
     ∃ p, Config.purpose configured gcpProject = VStr p
          ∧ (gcpProject = p +:+ "-cluster"
             ∨ (gcpProject = p ∧ ∀ s, gcpProject ≠ s +:+ "-cluster"))).
Proof.
  unfold Config.purpose, Config.orElse. split; intros ->; [done |].
  eexists. split; [reflexivity |].
  destruct (replaceTrailing_spec "-cluster" gcpProject) as [(s' & -> & ->) | [Hno ->]];
    [done | by left | by right].
Qed.

Lemma purpose_default_witness :
  Config.purpose (VStr "prod") "atomist-cluster" = VStr "prod"
  ∧ ∃ p, Config.purpose VUndefined "atomist-cluster" = VStr p
         ∧ "atomist-cluster" = p +:+ "-cluster".
Proof.
  destruct (purpose_default (VStr "prod") "atomist-cluster") as [H1 _].
  destruct (purpose_default VUndefined "atomist-cluster") as [_ H2].
  split; [exact (H1 eq_refl) |].
  destruct (H2 eq_refl) as (p & Hp & [Hs | [_ Hno]]).
  - exists p. split; [exact Hp | exact Hs].
  - exfalso. exact (Hno "atomist" eq_refl).
Defined.

Lemma node_counts_never_zero_witness :
  Config.minNodeCount (obj [("minNodeCount", VNum 0); ("maxNodeCount", VNum 5)])
  = Ok (VNum 1)
  ∧ Config.maxNodeCount (obj [("minNodeCount", VNum 0); ("maxNodeCount", VNum 5)])
    = Ok (VNum 5).
Proof.
  destruct (node_counts_never_zero
              (obj [("minNodeCount", VNum 0); ("maxNodeCount", VNum 5)]))
    as (vmax & vmin & -> & -> & _ & _ & Hmax & _ & _ & Hmin).
  split.
  - f_equal. apply Hmin. left. reflexivity.
  - f_equal. apply (Hmax 5%Z); [discriminate | reflexivity].
Defined.

Lemma throws_on_ill_typed_kind_witness :
  ∃ e σ',
    resourcesFromSpecs (sdk := sampleSdk) kindFiveArgs callerStore
    = (Throw e, σ').
Proof.
  apply (proj2 (throws_on_ill_typed_kind (sdk := sampleSdk) kindFiveArgs
                  callerStore kindFive ltac:(apply list_elem_of_further,
                                             list_elem_of_here)
                  eq_refl eq_refl ltac:(discriminate))).
Defined.

Lemma account_names_collide_witness :
  Iam.resourceName (fst (Iam.workloadIdentity (longIdentity "-blue") []))
  = Iam.resourceName (fst (Iam.workloadIdentity (longIdentity "-green") [])).
Proof.
  apply (proj2 (account_names_collide (longIdentity "-blue")
                  (longIdentity "-green") [] [])).
  reflexivity.
Defined.

Lemma member_names_distinct_witness :
  NoDup (declaredMembers (snd (Iam.workloadIdentity sampleIdentity []))).
Proof.
  apply (proj2 (member_names_distinct sampleIdentity)).
  apply (bool_decide_unpack _). vm_compute. exact I.
Defined.

(** * The policy document *)

Section policy.




End policy.


